(** * generate_icons.py: the Android launcher-icon generator

    A shallow embedding of [src/generate_icons.py] and the properties of
    its single function [generate_icons].

    The script is I/O orchestration over two external libraries: Pillow
    ([Image.open], [convert], [resize], [save]) and the operating system
    ([os.path.join], [os.makedirs], [print]).  The libraries are not part
    of the repository, so they enter the development as the fields of two
    interfaces, [PIL] and [OS]; the script itself is translated statement
    by statement into a state-and-exception monad over a [World] that
    holds the file store, the directories and a chronological log of
    every call the script makes. *)

From stdpp Require Import gmap strings list pretty.
From Stdlib Require Import ZArith.
From Stdlib.Strings Require Import Byte.

Open Scope string_scope.
Open Scope Z_scope.
Open Scope list_scope.

(** ** Constants of the module *)

(** Source icon *)
Definition SOURCE_ICON : string := "app/src/main/res/Icon.png".

(** Icon sizes for different densities.  A Python dict literal is iterated
    in insertion order, so the table is the list of its items. *)
Definition ICON_SIZES : list (string * Z) :=
  [ ("mdpi", 48);
    ("hdpi", 72);
    ("xhdpi", 96);
    ("xxhdpi", 144);
    ("xxxhdpi", 192) ].

(** Output directories *)
Definition MIPMAP_DIR : string := "app/src/main/res".

(** ** Strings: f-string pieces and [os.path.join] *)

(** The newline character written [\n] in the Python literals. *)
Definition nl : string := String (Ascii.ascii_of_nat 10) "".

Definition sep : Ascii.ascii := Ascii.ascii_of_nat 47.

Definition startswith_sep (s : string) : bool :=
  match s with
  | String c _ => bool_decide (c = sep)
  | EmptyString => false
  end.

Fixpoint endswith_sep (s : string) : bool :=
  match s with
  | EmptyString => false
  | String c EmptyString => bool_decide (c = sep)
  | String _ rest => endswith_sep rest
  end.

(** [os.path.join a b] of [posixpath], for two components: an absolute
    [b] replaces [a]; otherwise the components are glued with exactly one
    separator between them. *)
Definition path_join (a b : string) : string :=
  if startswith_sep b then b
  else if bool_decide (a = "") || endswith_sep a then a +:+ b
  else a +:+ "/" +:+ b.

(** [str] of an [int], and [repr] of a pair of them (the [size] tuple). *)
Definition str_int (n : Z) : string := pretty n.

Definition repr_size (sz : Z * Z) : string :=
  "(" +:+ str_int sz.1 +:+ ", " +:+ str_int sz.2 +:+ ")".

(** The path of a directory and the paths of all its ancestors, outermost
    first: the directories [os.makedirs] makes sure exist. *)
Fixpoint dir_chain (acc rest : string) : list string :=
  match rest with
  | EmptyString => if bool_decide (acc = "") then [] else [acc]
  | String c rest' =>
      if bool_decide (c = sep)
      then (if bool_decide (acc = "") then [] else [acc])
             ++ dir_chain (acc +:+ "/") rest'
      else dir_chain (acc +:+ String c "") rest'
  end.

(** ** The Pillow interface *)

(** [Image.Resampling] *)
Inductive Resampling : Set :=
  NEAREST | BOX | BILINEAR | HAMMING | BICUBIC | LANCZOS.

(** Keyword arguments of [Image.save] that the script passes. *)
Inductive SaveParam : Set :=
| optimize (b : bool)
| quality (q : Z).

Class PIL := {
  (** decoded bitmaps, [PIL.Image.Image] *)
  Image : Type;
  (** exception values *)
  exn : Type;
  (** [str(e)] *)
  str_exn : exn -> string;
  (** the attributes [im.mode] and [im.size] *)
  mode : Image -> string;
  size : Image -> Z * Z;
  (** [im.convert(mode)] and [im.resize(size, resample)]: each returns a
      new image or raises; the receiver is left as it is. *)
  convert : Image -> string -> exn + Image;
  resize : Image -> Z * Z -> Resampling -> exn + Image;
  (** the bytes [im.save(fp, format, **params)] puts in the file when it
      succeeds: a function of the bitmap and the settings. *)
  encode : Image -> string -> list SaveParam -> list byte;
}.

(** What Pillow documents of [convert] and [resize]: the result has the
    requested mode, respectively the requested size and the mode of the
    receiver. *)
Class PILContract `{PIL} : Prop := {
  convert_mode : forall im m im', convert im m = inr im' -> mode im' = m;
  resize_size : forall im sz f im', resize im sz f = inr im' -> size im' = sz;
  resize_mode : forall im sz f im', resize im sz f = inr im' -> mode im' = mode im;
}.

(** ** The world: files, directories and the log of calls *)

Section World.
Context `{PIL}.

(** The library calls of the script, with their arguments. *)
Inductive Call : Type :=
| Open (path : string)
| Convert (im : Image) (m : string)
| Makedirs (path : string) (exist_ok : bool)
| Resize (im : Image) (sz : Z * Z) (resample : Resampling)
| Save (im : Image) (path : string) (format : string) (params : list SaveParam).

(** One entry of the log: a line printed, a call that returned, or a call
    that raised. *)
Inductive Event : Type :=
| Printed (line : string)
| Returned (c : Call)
| Raised (c : Call) (e : exn).

Record World : Type := mkWorld {
  files : gmap string (list byte);
  dirs : gset string;
  log : list Event;
}.

(** The part of the environment the script cannot see: what the source
    file decodes to, and when the operating system refuses a directory or
    a file.  A refused [makedirs] may already have made the first [n]
    directories of the chain; a failed [save] leaves [residue] at the
    path ([None]: no file there). *)
Class OS := {
  Image_open : World -> string -> exn + Image;
  makedirs_fault : World -> string -> option (exn * nat);
  save_fault : World -> Image -> string -> string -> list SaveParam ->
               option (exn * option (list byte));
}.

Context `{OS}.

(** ** The monad: state and exceptions *)

Inductive Outcome (A : Type) : Type :=
| Normal (a : A)
| Raise (e : exn).
Arguments Normal {A} a.
Arguments Raise {A} e.

Definition M (A : Type) : Type := World -> Outcome A * World.

Definition ret {A} (a : A) : M A := fun w => (Normal a, w).

Definition bind {A B} (m : M A) (k : A -> M B) : M B :=
  fun w => match m w with
           | (Normal a, w') => k a w'
           | (Raise e, w') => (Raise e, w')
           end.

(** [try: body except Exception as e: handler e] *)
Definition try_except {A} (body : M A) (handler : exn -> M A) : M A :=
  fun w => match body w with
           | (Normal a, w') => (Normal a, w')
           | (Raise e, w') => handler e w'
           end.

Notation "x <- m ;; k" := (bind m (fun x => k))
  (at level 100, m at next level, right associativity).
Notation "m ;;; k" := (bind m (fun _ => k))
  (at level 100, right associativity).

(** [for x in xs: body x] *)
Fixpoint for_each {A} (xs : list A) (body : A -> M unit) : M unit :=
  match xs with
  | [] => ret tt
  | x :: xs' => body x ;;; for_each xs' body
  end.

Definition emit (ev : Event) (w : World) : World :=
  mkWorld (files w) (dirs w) (log w ++ [ev]).

(** ** The library calls as monadic operations *)

Definition print (line : string) : M unit :=
  fun w => (Normal tt, emit (Printed line) w).

Definition open_image (path : string) : M Image :=
  fun w => match Image_open w path with
           | inr im => (Normal im, emit (Returned (Open path)) w)
           | inl e => (Raise e, emit (Raised (Open path) e) w)
           end.

Definition convert_image (im : Image) (m : string) : M Image :=
  fun w => match convert im m with
           | inr im' => (Normal im', emit (Returned (Convert im m)) w)
           | inl e => (Raise e, emit (Raised (Convert im m) e) w)
           end.

Definition resize_image (im : Image) (sz : Z * Z) (f : Resampling) : M Image :=
  fun w => match resize im sz f with
           | inr im' => (Normal im', emit (Returned (Resize im sz f)) w)
           | inl e => (Raise e, emit (Raised (Resize im sz f) e) w)
           end.

Definition makedirs (path : string) (exist_ok : bool) : M unit :=
  fun w => match makedirs_fault w path with
           | None =>
               (Normal tt,
                mkWorld (files w)
                        (dirs w ∪ list_to_set (dir_chain "" path))
                        (log w ++ [Returned (Makedirs path exist_ok)]))
           | Some (e, n) =>
               (Raise e,
                mkWorld (files w)
                        (dirs w ∪ list_to_set (take n (dir_chain "" path)))
                        (log w ++ [Raised (Makedirs path exist_ok) e]))
           end.

Definition put_file (path : string) (content : option (list byte))
    (fs : gmap string (list byte)) : gmap string (list byte) :=
  match content with
  | Some b => <[path := b]> fs
  | None => delete path fs
  end.

Definition save_image (im : Image) (path fmt : string)
    (params : list SaveParam) : M unit :=
  fun w => match save_fault w im path fmt params with
           | None =>
               (Normal tt,
                mkWorld (put_file path (Some (encode im fmt params)) (files w))
                        (dirs w)
                        (log w ++ [Returned (Save im path fmt params)]))
           | Some (e, residue) =>
               (Raise e,
                mkWorld (put_file path residue (files w))
                        (dirs w)
                        (log w ++ [Raised (Save im path fmt params) e]))
           end.

(** ** The script *)

(** The body of the [for density, size in ICON_SIZES.items()] loop. *)
Definition generate_density (source_img : Image) (item : string * Z) : M unit :=
  let '(density, size) := item in
  print (nl +:+ "Generating " +:+ density +:+ " icons ("
            +:+ str_int size +:+ "x" +:+ str_int size +:+ ")...") ;;;
  (* Create output directory if it doesn't exist *)
  let output_dir := path_join MIPMAP_DIR ("mipmap-" +:+ density) in
  makedirs output_dir true ;;;
  (* Resize image with high-quality resampling *)
  resized_img <- resize_image source_img (size, size) LANCZOS ;;
  (* Save as PNG (standard launcher icon) *)
  let png_path := path_join output_dir "ic_launcher.png" in
  save_image resized_img png_path "PNG" [optimize true] ;;;
  print ("  ✓ Saved: " +:+ png_path) ;;;
  (* Save as round icon *)
  let round_path := path_join output_dir "ic_launcher_round.png" in
  save_image resized_img round_path "PNG" [optimize true] ;;;
  print ("  ✓ Saved: " +:+ round_path) ;;;
  (* Optionally save as WebP format (more efficient) *)
  let webp_path := path_join output_dir "ic_launcher.webp" in
  save_image resized_img webp_path "WEBP" [quality 95] ;;;
  print ("  ✓ Saved: " +:+ webp_path) ;;;
  (* Save round as WebP *)
  let webp_round_path := path_join output_dir "ic_launcher_round.webp" in
  save_image resized_img webp_round_path "WEBP" [quality 95] ;;;
  print ("  ✓ Saved: " +:+ webp_round_path).

(** Everything after the [try] statement: the mode conversion, the loop
    and the closing message. *)
Definition generate_from (source_img : Image) : M unit :=
  (* Convert to RGBA if needed *)
  source_img <- (if bool_decide (mode source_img ≠ "RGBA")
                 then convert_image source_img "RGBA"
                 else ret source_img) ;;
  (* Generate icons for each density *)
  for_each ICON_SIZES (generate_density source_img) ;;;
  print (nl +:+ "✓ All icons generated successfully!").

(** [generate_icons()].  The [try] block yields the loaded image; the
    handler prints the error and yields [None], which stands for the
    [return] that leaves the function. *)
Definition generate_icons : M unit :=
  print ("Loading source icon: " +:+ SOURCE_ICON) ;;;
  loaded <- try_except
              (source_img <- open_image SOURCE_ICON ;;
               print ("Source icon size: " +:+ repr_size (size source_img)) ;;;
               ret (Some source_img))
              (fun e =>
               print ("Error loading source icon: " +:+ str_exn e) ;;;
               ret None) ;;
  match loaded with
  | None => ret tt
  | Some source_img => generate_from source_img
  end.

End World.

Arguments Normal {_ A} a.
Arguments Raise {_ A} e.

(** ** A small concrete platform

    Bitmaps are a mode and a size; exceptions are their messages; the
    encoder writes the format, the mode and the size.  A [Scenario] fixes
    what the environment does: whether the source file is there, and
    which directories and files the operating system refuses. *)

Module Toy.

Record bitmap : Set := Bitmap { b_mode : string; b_size : Z * Z }.

Definition toy_encode (im : bitmap) (fmt : string) (params : list SaveParam)
  : list byte :=
  String.list_byte_of_string
    (fmt +:+ ":" +:+ b_mode im +:+ ":" +:+ repr_size (b_size im)).

#[export] Instance toy_PIL : PIL := {|
  Image := bitmap;
  exn := string;
  str_exn := fun e => e;
  mode := b_mode;
  size := b_size;
  convert := fun im m => inr (Bitmap m (b_size im));
  resize := fun im sz _ => inr (Bitmap (b_mode im) sz);
  encode := toy_encode;
|}.

Record Scenario : Type := {
  source : option bitmap;
  refused_dir : string -> option (string * nat);
  refused_file : string -> option (string * option (list byte));
}.

Definition toy_OS (sc : Scenario) : OS := {|
  Image_open := fun _ path =>
    match source sc with
    | Some im => if bool_decide (path = SOURCE_ICON) then inr im
                 else inl "No such file or directory"
    | None => inl "No such file or directory"
    end;
  makedirs_fault := fun _ path => refused_dir sc path;
  save_fault := fun _ _ path _ _ => refused_file sc path;
|}.

Definition empty_world : World := mkWorld ∅ ∅ [].

(** A 512x512 RGB source, nothing refused. *)
Definition fair : Scenario := {|
  source := Some (Bitmap "RGB" (512, 512));
  refused_dir := fun _ => None;
  refused_file := fun _ => None;
|}.

(** The source file is missing. *)
Definition no_source : Scenario := {|
  source := None;
  refused_dir := fun _ => None;
  refused_file := fun _ => None;
|}.

(** A 300x200 RGBA source; every directory is refused. *)
Definition read_only : Scenario := {|
  source := Some (Bitmap "RGBA" (300, 200));
  refused_dir := fun _ => Some ("Permission denied", 0%nat);
  refused_file := fun _ => None;
|}.

(** A 512x512 RGBA source; the disk fills up at the hdpi WEBP file, which
    is left empty. *)
Definition disk_full : Scenario := {|
  source := Some (Bitmap "RGBA" (512, 512));
  refused_dir := fun _ => None;
  refused_file := fun path =>
    if bool_decide (path = "app/src/main/res/mipmap-hdpi/ic_launcher.webp")
    then Some ("No space left on device", Some [])
    else None;
|}.

(** A 512x512 RGBA source; the xhdpi directory cannot be made. *)
Definition locked_xhdpi : Scenario := {|
  source := Some (Bitmap "RGBA" (512, 512));
  refused_dir := fun path =>
    if bool_decide (path = "app/src/main/res/mipmap-xhdpi")
    then Some ("Permission denied", 4%nat)
    else None;
  refused_file := fun _ => None;
|}.

End Toy.

(** [generate_icons()] on this platform, and what a run from [w] appends
    to the log. *)
Abbreviation toy_run sc w :=
  (@generate_icons Toy.toy_PIL (Toy.toy_OS sc) w) (only parsing).
Abbreviation toy_log sc w :=
  (drop (length (log w)) (log (toy_run sc w).2)) (only parsing).

(** A platform whose [convert] refuses palette images (mode ["P"]);
    the source is always there and nothing else fails. *)
Module Picky.

#[export] Instance picky_PIL : PIL := {|
  Image := Toy.bitmap;
  exn := string;
  str_exn := fun e => e;
  mode := Toy.b_mode;
  size := Toy.b_size;
  convert := fun im m =>
    if bool_decide (Toy.b_mode im = "P")
    then inl "conversion not supported"
    else inr (Toy.Bitmap m (Toy.b_size im));
  resize := fun im sz _ => inr (Toy.Bitmap (Toy.b_mode im) sz);
  encode := Toy.toy_encode;
|}.

Definition picky_OS (src : Toy.bitmap) : OS := {|
  Image_open := fun _ _ => inr src;
  makedirs_fault := fun _ _ => None;
  save_fault := fun _ _ _ _ _ => None;
|}.

Definition empty_world : @World picky_PIL := mkWorld ∅ ∅ [].

End Picky.

(** A platform that decodes lazily, as Pillow does: [Image.open] reads
    the header only, and a file whose pixel data is cut short raises when
    [convert] or [resize] first needs the pixels. *)
Module Lazy.

Record picture : Set :=
  Picture { p_mode : string; p_size : Z * Z; p_intact : bool }.

#[export] Instance lazy_PIL : PIL := {|
  Image := picture;
  exn := string;
  str_exn := fun e => e;
  mode := p_mode;
  size := p_size;
  convert := fun im m =>
    if p_intact im then inr (Picture m (p_size im) true)
    else inl "image file is truncated";
  resize := fun im sz _ =>
    if p_intact im then inr (Picture (p_mode im) sz true)
    else inl "image file is truncated";
  encode := fun im fmt _ =>
    String.list_byte_of_string
      (fmt +:+ ":" +:+ p_mode im +:+ ":" +:+ repr_size (p_size im));
|}.

(** The source file is there and its header reads as [src]; nothing is
    refused. *)
Definition lazy_OS (src : picture) : OS := {|
  Image_open := fun _ _ => inr src;
  makedirs_fault := fun _ _ => None;
  save_fault := fun _ _ _ _ _ => None;
|}.

Definition empty_world : World := mkWorld ∅ ∅ [].

End Lazy.

(** A platform whose bitmaps are fully opaque and whose WEBP encoder
    stores no alpha plane for them: the file of an RGBA bitmap reads back
    as RGB.  A file starts with the mode it stores. *)
Module Opaque.

Definition stored_mode (im : Toy.bitmap) (fmt : string) : string :=
  if bool_decide (fmt = "WEBP") && bool_decide (Toy.b_mode im = "RGBA")
  then "RGB"
  else Toy.b_mode im.

Definition opaque_encode (im : Toy.bitmap) (fmt : string)
    (params : list SaveParam) : list byte :=
  String.list_byte_of_string
    (stored_mode im fmt +:+ ":" +:+ fmt +:+ ":" +:+ repr_size (Toy.b_size im)).

Definition colon : Ascii.ascii := Ascii.ascii_of_nat 58.

Fixpoint upto_colon (s : string) : string :=
  match s with
  | EmptyString => EmptyString
  | String c rest =>
      if bool_decide (c = colon) then EmptyString
      else String c (upto_colon rest)
  end.

(** The mode a decoder finds in a file. *)
Definition decoded_mode (content : list byte) : string :=
  upto_colon (String.string_of_list_byte content).

#[export] Instance opaque_PIL : PIL := {|
  Image := Toy.bitmap;
  exn := string;
  str_exn := fun e => e;
  mode := Toy.b_mode;
  size := Toy.b_size;
  convert := fun im m => inr (Toy.Bitmap m (Toy.b_size im));
  resize := fun im sz _ => inr (Toy.Bitmap (Toy.b_mode im) sz);
  encode := opaque_encode;
|}.

Definition opaque_OS (src : Toy.bitmap) : OS := {|
  Image_open := fun _ _ => inr src;
  makedirs_fault := fun _ _ => None;
  save_fault := fun _ _ _ _ _ => None;
|}.

Definition empty_world : World := mkWorld ∅ ∅ [].

End Opaque.

(** ** Reading a log *)

Section Observations.
Context `{PIL}.

Definition call_of (ev : Event) : option Call :=
  match ev with
  | Printed _ => None
  | Returned c => Some c
  | Raised c _ => Some c
  end.

Definition save_path (c : Call) : option string :=
  match c with
  | Save _ path _ _ => Some path
  | _ => None
  end.

(** The calls made, in order, whatever their outcome. *)
Definition calls (evs : list Event) : list Call := omap call_of evs.

(** The lines printed, in order. *)
Definition stdout (evs : list Event) : list string :=
  omap (fun ev => match ev with Printed line => Some line | _ => None end) evs.

(** The paths of the files written: the [save] calls that returned. *)
Definition written (evs : list Event) : list string :=
  omap (fun ev => match ev with Returned c => save_path c | _ => None end) evs.

(** The paths any [save] call was made on, returned or not. *)
Definition touched (evs : list Event) : list string :=
  omap save_path (calls evs).

Definition is_convert (c : Call) : bool :=
  match c with Convert _ _ => true | _ => false end.

Definition is_raised (ev : Event) : bool :=
  match ev with Raised _ _ => true | _ => false end.

(** What one log entry does to the file store and the directories. *)
Definition effect (ev : Event)
    (s s' : gmap string (list byte) * gset string) : Prop :=
  match ev with
  | Returned (Save im path fmt params) =>
      s' = (<[path := encode im fmt params]> s.1, s.2)
  | Raised (Save _ path _ _) _ =>
      exists residue, s' = (put_file path residue s.1, s.2)
  | Returned (Makedirs path _) =>
      s' = (s.1, s.2 ∪ list_to_set (dir_chain "" path))
  | Raised (Makedirs path _) _ =>
      exists n, s' = (s.1, s.2 ∪ list_to_set (take n (dir_chain "" path)))
  | _ => s' = s
  end.

Fixpoint replays (evs : list Event)
    (s s' : gmap string (list byte) * gset string) : Prop :=
  match evs with
  | [] => s' = s
  | ev :: evs' => exists s1, effect ev s s1 /\ replays evs' s1 s'
  end.

Definition store (w : World) : gmap string (list byte) * gset string :=
  (files w, dirs w).

(** The world in which [generate_icons], started in [w], calls
    [Image.open]. *)
Definition at_open (w : World) : World :=
  emit (Printed ("Loading source icon: " +:+ SOURCE_ICON)) w.

(** ** The logs a run can leave *)

Definition header_line (density : string) (size : Z) : string :=
  nl +:+ "Generating " +:+ density +:+ " icons ("
     +:+ str_int size +:+ "x" +:+ str_int size +:+ ")...".

Definition saved_line (path : string) : string := "  ✓ Saved: " +:+ path.

Definition output_dir (density : string) : string :=
  path_join MIPMAP_DIR ("mipmap-" +:+ density).

Definition density_head (src : Image) (density : string) (size : Z)
  : list Event :=
  [ Printed (header_line density size);
    Returned (Makedirs (output_dir density) true);
    Returned (Resize src (size, size) LANCZOS) ].

(** The four files of a density, in the order the loop body writes them:
    path, format and keyword arguments. *)
Definition save_plan (density : string)
  : list (string * string * list SaveParam) :=
  let dir := output_dir density in
  [ (path_join dir "ic_launcher.png", "PNG", [optimize true]);
    (path_join dir "ic_launcher_round.png", "PNG", [optimize true]);
    (path_join dir "ic_launcher.webp", "WEBP", [quality 95]);
    (path_join dir "ic_launcher_round.webp", "WEBP", [quality 95]) ].

(** The log of saving bitmap [r] along a plan: each save, then its
    progress line. *)
Definition saves_events (r : Image)
    (plan : list (string * string * list SaveParam)) : list Event :=
  '(path, fmt, params) ← plan;
  [Returned (Save r path fmt params); Printed (saved_line path)].

Definition plan_paths (plan : list (string * string * list SaveParam))
  : list string := plan.*1.*1.

(** The paths a complete pass over a table writes, in order. *)
Definition outputs (table : list (string * Z)) : list string :=
  item ← table; plan_paths (save_plan item.1).

(** A call an iteration for [density] and [size] may make on [src]. *)
Definition density_call (src : Image) (density : string) (size : Z)
    (c : Call) : Prop :=
  c = Makedirs (output_dir density) true \/
  c = Resize src (size, size) LANCZOS \/
  exists r path fmt params,
    resize src (size, size) LANCZOS = inr r /\
    (path, fmt, params) ∈ save_plan density /\
    c = Save r path fmt params.

(** The progress lines that open an iteration. *)
Fixpoint starts_with (p s : string) : bool :=
  match p, s with
  | EmptyString, _ => true
  | String a p', String b s' => bool_decide (a = b) && starts_with p' s'
  | String _ _, EmptyString => false
  end.

Definition is_header (line : string) : bool :=
  starts_with (nl +:+ "Generating ") line.

Definition headers (evs : list Event) : list string :=
  filter (fun line => is_header line = true) (stdout evs).

Definition table_headers (table : list (string * Z)) : list string :=
  (fun item => header_line item.1 item.2) <$> table.

(** Every save that returned is followed at once by its progress line. *)
Fixpoint announced (evs : list Event) : Prop :=
  match evs with
  | [] => True
  | Returned (Save _ path _ _) :: rest =>
      match rest with
      | Printed line :: _ => line = saved_line path
      | _ => False
      end /\ announced rest
  | _ :: rest => announced rest
  end.

Definition density_saves (density : string) (r : Image) : list Event :=
  saves_events r (save_plan density).

(** One iteration that raises: the entries logged before the failing
    call, the call, and the exception. *)
Inductive density_abort (src : Image) (density : string) (size : Z)
  : list Event -> Call -> exn -> Prop :=
| abort_makedirs e :
    density_abort src density size
      [Printed (header_line density size)]
      (Makedirs (output_dir density) true) e
| abort_resize e :
    resize src (size, size) LANCZOS = inl e ->
    density_abort src density size
      [Printed (header_line density size);
       Returned (Makedirs (output_dir density) true)]
      (Resize src (size, size) LANCZOS) e
| abort_save r k path fmt params e :
    resize src (size, size) LANCZOS = inr r ->
    save_plan density !! k = Some (path, fmt, params) ->
    density_abort src density size
      (density_head src density size
         ++ saves_events r (take k (save_plan density)))
      (Save r path fmt params) e.

(** The loop over a table: every iteration completes, or one raises and
    ends the loop. *)
Inductive loop_run (src : Image)
  : list (string * Z) -> Outcome unit -> list Event -> Prop :=
| loop_done :
    loop_run src [] (Normal tt) []
| loop_next density size rest r o evs :
    resize src (size, size) LANCZOS = inr r ->
    loop_run src rest o evs ->
    loop_run src ((density, size) :: rest) o
      (density_head src density size ++ density_saves density r ++ evs)
| loop_abort density size rest pre c e :
    density_abort src density size pre c e ->
    loop_run src ((density, size) :: rest) (Raise e) (pre ++ [Raised c e]).

Definition loaded_events (img : Image) : list Event :=
  [ Printed ("Loading source icon: " +:+ SOURCE_ICON);
    Returned (Open SOURCE_ICON);
    Printed ("Source icon size: " +:+ repr_size (size img)) ].

Definition closing (o : Outcome unit) : list Event :=
  match o with
  | Normal _ => [Printed (nl +:+ "✓ All icons generated successfully!")]
  | Raise _ => []
  end.

(** The mode conversion that succeeds or is skipped: the image the loop
    works on and the entry logged. *)
Inductive conversion (img : Image) : Image -> list Event -> Prop :=
| conversion_skipped :
    mode img = "RGBA" ->
    conversion img img []
| conversion_done src :
    mode img ≠ "RGBA" ->
    convert img "RGBA" = inr src ->
    conversion img src [Returned (Convert img "RGBA")].

(** A run of [generate_icons] that loaded [img]: the conversion raises,
    or the loop runs on [src], the loaded image or its conversion. *)
Inductive script_run (img : Image) : Outcome unit -> list Event -> Prop :=
| script_convert_raises e :
    mode img ≠ "RGBA" ->
    convert img "RGBA" = inl e ->
    script_run img (Raise e)
      (loaded_events img ++ [Raised (Convert img "RGBA") e])
| script_loop src conv o evs :
    conversion img src conv ->
    loop_run src ICON_SIZES o evs ->
    script_run img o (loaded_events img ++ conv ++ evs ++ closing o).

End Observations.

(** ** What the claims name *)

Definition densities : list string :=
  ["mdpi"; "hdpi"; "xhdpi"; "xxhdpi"; "xxxhdpi"].

Definition launcher_files : list string :=
  ["ic_launcher.png"; "ic_launcher_round.png";
   "ic_launcher.webp"; "ic_launcher_round.webp"].

Definition mipmap (density : string) : string :=
  "app/src/main/res/mipmap-" +:+ density.

(** The twenty output paths, density by density. *)
Definition expected_outputs : list string :=
  density ← densities; name ← launcher_files; [mipmap density +:+ "/" +:+ name].

(** ** Further readings of a log *)

(** The line that closes a run. *)
Definition closing_line : string :=
  nl +:+ "✓ All icons generated successfully!".

(** The progress lines that report a file. *)
Definition is_saved (line : string) : bool :=
  starts_with "  ✓ Saved: " line.

(** [s.endswith(suffix)] *)
Definition ends_with (suffix s : string) : bool :=
  starts_with (String.rev suffix) (String.rev s).

(** The directories the script may create: the chain down to
    [app/src/main/res] and the five [mipmap-<density>] below it. *)
Definition output_dirs : list string :=
  ["app"; "app/src"; "app/src/main"; "app/src/main/res"]
    ++ (mipmap <$> densities).

Section Readings.
Context `{PIL}.

Definition saved_lines (evs : list Event) : list string :=
  filter (fun line => is_saved line = true) (stdout evs).

Definition is_open (c : Call) : bool :=
  match c with Open _ => true | _ => false end.

Definition is_makedirs (c : Call) : bool :=
  match c with Makedirs _ _ => true | _ => false end.

Definition is_resize (c : Call) : bool :=
  match c with Resize _ _ _ => true | _ => false end.

Definition is_save (c : Call) : bool :=
  match c with Save _ _ _ _ => true | _ => false end.

(** How many calls of one kind a log holds. *)
Definition count (kind : Call -> bool) (evs : list Event) : nat :=
  length (filter (fun c => kind c = true) (calls evs)).

(** The directories of the [makedirs] calls of a log, with their
    ancestors. *)
Definition made_dirs (evs : list Event) : list string :=
  c ← calls evs;
  match c with
  | Makedirs path _ => dir_chain "" path
  | _ => []
  end.

(** Every [save] of a log goes to a file directly under a directory for
    which a [makedirs] has returned earlier in the log (or which is in
    [made] already). *)
Fixpoint housed (made : list string) (evs : list Event) : Prop :=
  match evs with
  | [] => True
  | Returned (Makedirs dir _) :: rest => housed (dir :: made) rest
  | ev :: rest =>
      match call_of ev with
      | Some (Save _ path _ _) =>
          (exists dir name,
             dir ∈ made /\ name ∈ launcher_files /\
             path = path_join dir name) /\
          housed made rest
      | _ => housed made rest
      end
  end.

End Readings.

(** * Proofs *)

(** ** The script leaves one of the logs above *)

(** Case on the next library call of the iteration that can raise. *)
Ltac run_step :=
  match goal with
  | |- context [match makedirs_fault ?w ?p with _ => _ end] =>
      destruct (makedirs_fault w p) as [[? ?]|] eqn:?
  | |- context [match resize ?i ?s ?f with _ => _ end] =>
      destruct (resize i s f) as [?|?] eqn:?
  | |- context [match save_fault ?w ?i ?p ?f ?ps with _ => _ end] =>
      destruct (save_fault w i p f ps) as [[? ?]|] eqn:?
  end; cbn [fst snd files dirs log].

(** The entries added to the log are whatever follows [log w]. *)
Ltac log_frame :=
  cbn [log]; rewrite <- ?List.app_assoc; cbn [app];
  eexists; split; [reflexivity|].

(** Replaying an explicit list of entries from an explicit store. *)
Ltac solve_replays :=
  unfold store; cbn [replays effect fst snd files dirs put_file];
  repeat first [reflexivity | eexists | split].

Section Soundness.
Context `{PIL} `{!OS}.

Lemma replays_app evs1 evs2 s s1 s' :
  replays evs1 s s1 -> replays evs2 s1 s' -> replays (evs1 ++ evs2) s s'.
Proof.
  revert s. induction evs1 as [|ev evs1 IH]; simpl; intros s.
  - intros ->. done.
  - intros (s0 & Hev & Hrest) H2. exists s0. split; [done|]. by apply IH.
Qed.

(** One iteration, by cases on the calls in the order the body makes
    them: [makedirs], [resize], then the four saves. *)
Lemma generate_density_sound src density size w o w' :
  generate_density src (density, size) w = (o, w') ->
  exists evs, log w' = log w ++ evs /\ replays evs (store w) (store w') /\
    match o with
    | Normal _ => exists r, resize src (size, size) LANCZOS = inr r /\
        evs = density_head src density size ++ density_saves density r
    | Raise e => exists pre c, evs = pre ++ [Raised c e] /\
        density_abort src density size pre c e
    end.
Proof.
  unfold generate_density, bind, print, makedirs, resize_image, save_image, emit.
  cbn [fst snd files dirs log].
  run_step.
  { intros ?; simplify_eq. log_frame. split; [solve_replays|].
    eexists _, _. split; [|apply abort_makedirs]. done. }
  run_step.
  { intros ?; simplify_eq. log_frame. split; [solve_replays|].
    eexists _, _. split; [|by apply abort_resize]. done. }
  run_step.
  { intros ?; simplify_eq. log_frame. split; [solve_replays|].
    eexists _, _. split; [|by eapply (abort_save _ _ _ _ 0%nat)]. done. }
  run_step.
  { intros ?; simplify_eq. log_frame. split; [solve_replays|].
    eexists _, _. split; [|by eapply (abort_save _ _ _ _ 1%nat)]. done. }
  run_step.
  { intros ?; simplify_eq. log_frame. split; [solve_replays|].
    eexists _, _. split; [|by eapply (abort_save _ _ _ _ 2%nat)]. done. }
  run_step.
  { intros ?; simplify_eq. log_frame. split; [solve_replays|].
    eexists _, _. split; [|by eapply (abort_save _ _ _ _ 3%nat)]. done. }
  intros ?; simplify_eq. log_frame. split; [solve_replays|].
  eexists. split; [done|]. done.
Qed.

(** The loop, by induction on the table. *)
Lemma for_each_sound src table w o w' :
  for_each table (generate_density src) w = (o, w') ->
  exists evs, log w' = log w ++ evs /\ replays evs (store w) (store w') /\
    loop_run src table o evs.
Proof.
  revert w. induction table as [|[density size] rest IH]; intros w.
  - cbn [for_each]; unfold ret. intros ?; simplify_eq. exists [].
    rewrite app_nil_r.
    repeat split. constructor.
  - cbn [for_each]. unfold bind at 1.
    destruct (generate_density src (density, size) w) as [[[]|e] w1] eqn:Hbody;
      apply generate_density_sound in Hbody
        as (evs1 & Hlog1 & Hrep1 & Hrun1).
    + destruct Hrun1 as (r & Hr & ->). intros Hrest.
      apply IH in Hrest as (evs2 & Hlog2 & Hrep2 & Hrun2).
      eexists. split; [|split].
      * rewrite Hlog2, Hlog1, <- List.app_assoc. reflexivity.
      * by eapply replays_app.
      * rewrite <- List.app_assoc. by constructor.
    + destruct Hrun1 as (pre & c & -> & Habort). intros ?; simplify_eq.
      eexists. split; [done|]. split; [done|]. by constructor.
Qed.

Lemma generate_from_sound img w o w' :
  generate_from img w = (o, w') ->
  exists evs, log w' = log w ++ evs /\ replays evs (store w) (store w') /\
    script_run img o (loaded_events img ++ evs).
Proof.
  unfold generate_from. unfold bind at 1.
  case_bool_decide as Hmode.
  - unfold convert_image, emit.
    destruct (convert img "RGBA") as [e|src] eqn:Hconv.
    + intros ?; simplify_eq. log_frame. split; [solve_replays|].
      by constructor.
    + unfold bind, print, emit.
      destruct (for_each ICON_SIZES (generate_density src) _)
        as [[[]|e] w1] eqn:Hloop;
        apply for_each_sound in Hloop as (evs & Hlog & Hrep & Hrun);
        cbn [log files dirs] in *; intros ?; simplify_eq; cbn [log].
      * rewrite Hlog, <- !List.app_assoc. eexists. split; [reflexivity|].
        split.
        -- eapply (replays_app [_]); [solve_replays|].
           eapply replays_app; [exact Hrep|]. solve_replays.
        -- apply (script_loop img src [_] (Normal tt)); [by constructor|done].
      * rewrite Hlog, <- !List.app_assoc. eexists. split; [reflexivity|].
        split.
        -- eapply (replays_app [_]); [solve_replays|]. exact Hrep.
        -- pose proof (script_loop img src [_] _ _
                         (conversion_done img src Hmode Hconv) Hrun) as Hs.
           cbn [closing] in Hs. by rewrite app_nil_r in Hs.
  - unfold ret, bind, print, emit.
    destruct (for_each ICON_SIZES (generate_density img) _)
      as [[[]|e] w1] eqn:Hloop;
      apply for_each_sound in Hloop as (evs & Hlog & Hrep & Hrun);
      intros ?; simplify_eq; cbn [log].
    + rewrite Hlog, <- !List.app_assoc. eexists. split; [reflexivity|].
      split.
      * eapply replays_app; [exact Hrep|]. solve_replays.
      * apply (script_loop img img [] (Normal tt)); [by constructor|done].
    + eexists. split; [exact Hlog|]. split; [exact Hrep|].
      pose proof (script_loop img img [] _ _
                    (conversion_skipped img Hmode) Hrun) as Hs.
      cbn [closing] in Hs. by rewrite app_nil_r in Hs.
Qed.

(** The script, when [Image.open] returns [img]. *)
Lemma generate_icons_sound img w o w' :
  Image_open (at_open w) SOURCE_ICON = inr img ->
  generate_icons w = (o, w') ->
  exists evs, log w' = log w ++ evs /\ replays evs (store w) (store w') /\
    script_run img o evs.
Proof.
  intros Hopen. unfold generate_icons, bind at 1, print at 1.
  unfold bind at 1, try_except, bind at 1, open_image.
  fold (at_open w). rewrite Hopen.
  unfold bind, print, ret. cbn [fst snd].
  intros Hrun. apply generate_from_sound in Hrun
    as (evs & Hlog & Hrep & Hrun).
  unfold emit, at_open, emit in Hlog, Hrep. cbn [log files dirs] in Hlog, Hrep.
  rewrite Hlog, <- !List.app_assoc. eexists. split; [reflexivity|].
  split; [|exact Hrun].
  eapply (replays_app [_; _; _]); [solve_replays|]. exact Hrep.
Qed.

(** The script, when [Image.open] raises [e]: the handler runs and the
    function returns. *)
Lemma generate_icons_load_failure e w :
  Image_open (at_open w) SOURCE_ICON = inl e ->
  generate_icons w =
    (Normal tt,
     mkWorld (files w) (dirs w)
       (log w ++
        [ Printed ("Loading source icon: " +:+ SOURCE_ICON);
          Raised (Open SOURCE_ICON) e;
          Printed ("Error loading source icon: " +:+ str_exn e) ])).
Proof.
  intros Hopen. unfold generate_icons, bind at 1, print at 1.
  unfold bind at 1, try_except, bind at 1, open_image.
  fold (at_open w). rewrite Hopen.
  unfold bind, print, ret, at_open, emit. cbn [fst snd log files dirs].
  by rewrite <- !List.app_assoc.
Qed.

(** A run only appends to the log. *)
Lemma generate_icons_appends w :
  log (generate_icons w).2 =
  log w ++ drop (length (log w)) (log (generate_icons w).2).
Proof.
  assert (exists evs, log (generate_icons w).2 = log w ++ evs) as [evs Hevs].
  { destruct (Image_open (at_open w) SOURCE_ICON) as [e|img] eqn:Hopen.
    - rewrite (generate_icons_load_failure _ _ Hopen). by eexists.
    - destruct (generate_icons w) as [o w'] eqn:Hrun.
      destruct (generate_icons_sound _ _ _ _ Hopen Hrun) as (evs & ? & _).
      by exists evs. }
  by rewrite Hevs, drop_app_length.
Qed.

Lemma run_outcome {A} (run : Outcome A * World) o :
  run.1 = o -> run = (o, run.2).
Proof. destruct run. by intros <-. Qed.

End Soundness.

(** ** Reading the logs of the loop *)

(** Unfold the effect of one entry in hypothesis [Hev]. *)
Ltac open_effect Hev :=
  simpl in Hev;
  try match type of Hev with
      | ex _ => let x := fresh "residue" in destruct Hev as [x Hev]
      end;
  subst.

Section Logs.
Context `{PIL}.

Lemma calls_app evs1 evs2 : calls (evs1 ++ evs2) = calls evs1 ++ calls evs2.
Proof. apply omap_app. Qed.

Lemma written_app evs1 evs2 :
  written (evs1 ++ evs2) = written evs1 ++ written evs2.
Proof. apply omap_app. Qed.

Lemma touched_app evs1 evs2 :
  touched (evs1 ++ evs2) = touched evs1 ++ touched evs2.
Proof. unfold touched. by rewrite calls_app, omap_app. Qed.

Lemma stdout_app evs1 evs2 :
  stdout (evs1 ++ evs2) = stdout evs1 ++ stdout evs2.
Proof. apply omap_app. Qed.

Lemma elem_of_calls c evs :
  c ∈ calls evs <-> Returned c ∈ evs \/ exists e, Raised c e ∈ evs.
Proof.
  unfold calls. rewrite list_elem_of_omap. split.
  - intros ([line|c'|c' e] & Hin & Hc); simplify_eq/=; eauto.
  - intros [Hin|[e Hin]]; eexists; (split; [exact Hin|done]).
Qed.

Lemma elem_of_written p evs :
  p ∈ written evs <->
  exists im fmt params, Returned (Save im p fmt params) ∈ evs.
Proof.
  unfold written. rewrite list_elem_of_omap. split.
  - intros ([line|[]|c' e] & Hin & Hc); simplify_eq/=; eauto.
  - intros (im & fmt & params & Hin). eexists. split; [exact Hin|done].
Qed.

Lemma elem_of_touched p evs :
  p ∈ touched evs <-> exists im fmt params, Save im p fmt params ∈ calls evs.
Proof.
  unfold touched. rewrite list_elem_of_omap. split.
  - intros ([] & Hin & Hc); simplify_eq/=; eauto.
  - intros (im & fmt & params & Hin). eexists. split; [exact Hin|done].
Qed.

(** Where no call raised, the files written are the files touched. *)
Lemma written_touched evs :
  Forall (fun ev => is_raised ev = false) evs -> written evs = touched evs.
Proof.
  induction 1 as [|[line|c|c e] evs Hev _ IH]; [done|..]; simplify_eq/=.
  - done.
  - unfold written, touched, calls in *. simpl. by rewrite IH.
Qed.

Lemma saves_events_cons r path fmt params plan :
  saves_events r ((path, fmt, params) :: plan) =
  [Returned (Save r path fmt params); Printed (saved_line path)]
    ++ saves_events r plan.
Proof. reflexivity. Qed.

Lemma saves_events_touched r plan :
  touched (saves_events r plan) = plan_paths plan.
Proof.
  induction plan as [|[[path fmt] params] plan IH]; [done|].
  rewrite saves_events_cons, touched_app, IH. done.
Qed.

Lemma saves_events_ok r plan :
  Forall (fun ev => is_raised ev = false) (saves_events r plan).
Proof.
  induction plan as [|[[path fmt] params] plan IH]; [constructor|].
  rewrite saves_events_cons. by repeat constructor.
Qed.

Lemma saves_events_calls r plan :
  calls (saves_events r plan) =
  (fun '(path, fmt, params) => Save r path fmt params) <$> plan.
Proof.
  induction plan as [|[[path fmt] params] plan IH]; [done|].
  rewrite saves_events_cons, calls_app, IH. done.
Qed.

(** *** The file store follows the log *)

Lemma replays_files_other evs s s' p :
  replays evs s s' -> p ∉ touched evs -> s'.1 !! p = s.1 !! p.
Proof.
  revert s. induction evs as [|ev evs IH]; intros s; simpl.
  - by intros ->.
  - intros (s1 & Hev & Hrest) Hp.
    change (ev :: evs) with ([ev] ++ evs) in Hp.
    rewrite touched_app, not_elem_of_app in Hp. destruct Hp as [Hp1 Hp2].
    rewrite (IH _ Hrest Hp2). clear IH Hrest Hp2.
    destruct ev as [line|[]|[] e]; open_effect Hev; try done; simpl.
    + apply lookup_insert_ne. set_solver.
    + unfold put_file. destruct residue.
      * apply lookup_insert_ne. set_solver.
      * apply lookup_delete_ne. set_solver.
Qed.

Lemma replays_written evs s s' im p fmt params :
  replays evs s s' -> NoDup (touched evs) ->
  Returned (Save im p fmt params) ∈ evs ->
  s'.1 !! p = Some (encode im fmt params).
Proof.
  revert s. induction evs as [|ev evs IH]; intros s; simpl.
  - intros _ _ Hin. by apply elem_of_nil in Hin.
  - intros (s1 & Hev & Hrest) Hnd Hin.
    change (ev :: evs) with ([ev] ++ evs) in Hnd.
    rewrite touched_app in Hnd. apply NoDup_app in Hnd as (_ & Hfresh & Hnd).
    apply elem_of_cons in Hin as [<-|Hin]; [|by eapply IH].
    simpl in Hev. subst s1.
    rewrite (replays_files_other _ _ _ p Hrest); [apply lookup_insert_eq|].
    apply Hfresh. set_solver.
Qed.

Lemma replays_dirs_mono evs s s' : replays evs s s' -> s.2 ⊆ s'.2.
Proof.
  revert s. induction evs as [|ev evs IH]; intros s; simpl.
  - by intros ->.
  - intros (s1 & Hev & Hrest). etrans; [|by eapply IH].
    destruct ev as [line|[]|[] e]; open_effect Hev; simpl; set_solver.
Qed.

Lemma replays_made evs s s' path exist_ok :
  replays evs s s' -> Returned (Makedirs path exist_ok) ∈ evs ->
  list_to_set (dir_chain "" path) ⊆ s'.2.
Proof.
  revert s. induction evs as [|ev evs IH]; intros s; simpl.
  - intros _ Hin. by apply elem_of_nil in Hin.
  - intros (s1 & Hev & Hrest) Hin.
    apply elem_of_cons in Hin as [<-|Hin]; [|by eapply IH].
    simpl in Hev. subst s1. etrans; [|by eapply replays_dirs_mono].
    simpl. set_solver.
Qed.


(** *** One iteration *)

Lemma density_head_ok src density size :
  Forall (fun ev => is_raised ev = false) (density_head src density size).
Proof. by repeat constructor. Qed.

Lemma density_abort_ok src density size pre c e :
  density_abort src density size pre c e ->
  Forall (fun ev => is_raised ev = false) pre.
Proof.
  destruct 1; [by repeat constructor..|].
  apply Forall_app. split; [apply density_head_ok|apply saves_events_ok].
Qed.

Lemma density_abort_touched src density size pre c e :
  density_abort src density size pre c e ->
  touched (pre ++ [Raised c e]) `prefix_of` plan_paths (save_plan density).
Proof.
  destruct 1 as [e|e Hr|r k path fmt params e Hr Hk]; [by eexists..|].
  rewrite <- List.app_assoc, !touched_app, saves_events_touched.
  cbn [density_head touched calls omap list_omap call_of save_path app].
  change (plan_paths (take k (save_plan density)) ++ [path])
    with (plan_paths (take k (save_plan density)) ++ plan_paths [(path, fmt, params)]).
  unfold plan_paths. rewrite <- !fmap_app, <- (take_S_r _ _ _ Hk), !fmap_take.
  apply prefix_take.
Qed.

Lemma density_abort_calls src density size pre c e c' :
  density_abort src density size pre c e ->
  c' ∈ calls (pre ++ [Raised c e]) -> density_call src density size c'.
Proof.
  unfold density_call.
  destruct 1 as [e|e Hr|r k path fmt params e Hr Hk].
  - simpl. intros ->%list_elem_of_singleton. by left.
  - simpl. intros [->| ->%list_elem_of_singleton]%elem_of_cons;
      [by left|by right; left].
  - rewrite <- List.app_assoc, !calls_app, saves_events_calls.
    rewrite !elem_of_app, list_elem_of_fmap.
    intros [Hc|[([[p f] ps] & -> & Hin)|Hc]].
    + simpl in Hc.
      apply elem_of_cons in Hc as [->| ->%list_elem_of_singleton];
        [by left|by right; left].
    + apply elem_of_take in Hin as (i & Hi%list_elem_of_lookup_2 & _).
      do 2 right. naive_solver.
    + apply list_elem_of_lookup_2 in Hk. simpl in Hc.
      apply list_elem_of_singleton in Hc as ->. do 2 right. naive_solver.
Qed.


Lemma density_complete_calls src density size r c :
  resize src (size, size) LANCZOS = inr r ->
  c ∈ calls (density_head src density size ++ density_saves density r) ->
  density_call src density size c.
Proof.
  intros Hr. unfold density_call, density_saves.
  rewrite calls_app, saves_events_calls, elem_of_app, list_elem_of_fmap.
  intros [Hc|([[p f] ps] & -> & Hin)].
  - simpl in Hc. apply elem_of_cons in Hc as [->|Hc]; [by left|].
    apply list_elem_of_singleton in Hc as ->. by right; left.
  - do 2 right. naive_solver.
Qed.

(** *** The loop *)

Lemma loop_run_raised src table o evs :
  loop_run src table o evs ->
  match o with
  | Normal _ => Forall (fun ev => is_raised ev = false) evs
  | Raise e => exists pre c,
      evs = pre ++ [Raised c e] /\
      Forall (fun ev => is_raised ev = false) pre
  end.
Proof.
  induction 1 as [|density size rest r o evs Hr Hrun IH
                  |density size rest pre c e Habort].
  - constructor.
  - destruct o as [u|e].
    + rewrite !Forall_app. split_and!;
        [apply density_head_ok|apply saves_events_ok|done].
    + destruct IH as (pre & c & -> & Hpre).
      exists (density_head src density size ++ density_saves density r ++ pre), c.
      split; [by rewrite <- !List.app_assoc|].
      rewrite !Forall_app. split_and!;
        [apply density_head_ok|apply saves_events_ok|done].
  - exists pre, c. split; [done|]. by eapply density_abort_ok.
Qed.

Lemma loop_run_touched src table o evs :
  loop_run src table o evs ->
  touched evs `prefix_of` outputs table /\
  (forall u, o = Normal u -> touched evs = outputs table).
Proof.
  induction 1 as [|density size rest r o evs Hr Hrun [IH1 IH2]
                  |density size rest pre c e Habort].
  - split; [done|]. done.
  - rewrite !touched_app. unfold density_saves.
    rewrite saves_events_touched.
    change (outputs ((density, size) :: rest))
      with (plan_paths (save_plan density) ++ outputs rest).
    cbn [density_head touched calls omap list_omap call_of save_path app].
    split; [by apply prefix_app|]. intros u ->. by rewrite (IH2 u).
  - split; [|done].
    change (outputs ((density, size) :: rest))
      with (plan_paths (save_plan density) ++ outputs rest).
    apply prefix_app_r. by eapply density_abort_touched.
Qed.

Lemma loop_run_calls src table o evs c :
  loop_run src table o evs -> c ∈ calls evs ->
  exists density size,
    (density, size) ∈ table /\ density_call src density size c.
Proof.
  induction 1 as [|density size rest r o evs Hr Hrun IH
                  |density size rest pre c' e Habort].
  - intros Hc. by apply elem_of_nil in Hc.
  - rewrite List.app_assoc, calls_app, elem_of_app. intros [Hc|Hc].
    + exists density, size. split; [by left|].
      by eapply density_complete_calls.
    + destruct (IH Hc) as (d & s & Hin & Hcall).
      exists d, s. split; [by right|done].
  - intros Hc. exists density, size. split; [by left|].
    by eapply density_abort_calls.
Qed.


(** *** Progress lines *)

Lemma announced_app evs1 evs2 :
  announced evs1 -> announced evs2 -> announced (evs1 ++ evs2).
Proof.
  induction evs1 as [|ev evs1 IH]; [done|].
  destruct ev as [line|[]|c e]; simpl; try (by auto).
  intros [Hnext Hrest] H2. split; [|by auto].
  destruct evs1 as [|[] evs1]; done.
Qed.

Lemma announced_lookup evs i im path fmt params :
  announced evs ->
  evs !! i = Some (Returned (Save im path fmt params)) ->
  evs !! S i = Some (Printed (saved_line path)).
Proof.
  revert i. induction evs as [|ev evs IH]; intros i; [done|].
  destruct i as [|i].
  - intros Hann [= ->]. simpl in Hann. destruct Hann as [Hnext _].
    destruct evs as [|[] evs]; try done. by subst.
  - intros Hann Hi. apply (IH i); [|done].
    destruct ev as [line|[]|c e]; simpl in Hann; tauto.
Qed.

Lemma saves_events_announced r plan : announced (saves_events r plan).
Proof.
  induction plan as [|[[path fmt] params] plan IH]; [done|].
  rewrite saves_events_cons. simpl. done.
Qed.

Lemma density_abort_announced src density size pre c e :
  density_abort src density size pre c e -> announced (pre ++ [Raised c e]).
Proof.
  destruct 1; [done..|].
  rewrite <- List.app_assoc. apply announced_app; [done|].
  apply announced_app; [apply saves_events_announced|done].
Qed.

Lemma loop_run_announced src table o evs :
  loop_run src table o evs -> announced evs.
Proof.
  induction 1; [done| |by eapply density_abort_announced].
  apply announced_app; [done|].
  apply announced_app; [apply saves_events_announced|done].
Qed.

Lemma headers_app evs1 evs2 :
  headers (evs1 ++ evs2) = headers evs1 ++ headers evs2.
Proof. unfold headers. by rewrite stdout_app, filter_app. Qed.

Lemma saves_events_headers r plan : headers (saves_events r plan) = [].
Proof.
  induction plan as [|[[path fmt] params] plan IH]; [done|].
  rewrite saves_events_cons, headers_app, IH. done.
Qed.

Lemma is_header_header_line density size :
  is_header (header_line density size) = true.
Proof. reflexivity. Qed.

Lemma headers_cons_header density size evs :
  headers (Printed (header_line density size) :: evs) =
  header_line density size :: headers evs.
Proof.
  unfold headers. cbn [stdout omap list_omap].
  by rewrite filter_cons_True by apply is_header_header_line.
Qed.

Lemma density_head_headers src density size :
  headers (density_head src density size) = [header_line density size].
Proof. unfold density_head. by rewrite headers_cons_header. Qed.

Lemma density_abort_headers src density size pre c e :
  density_abort src density size pre c e ->
  headers (pre ++ [Raised c e]) = [header_line density size].
Proof.
  destruct 1; [cbn [app]; by rewrite headers_cons_header..|].
  by rewrite !headers_app, saves_events_headers, density_head_headers.
Qed.

Lemma loop_run_headers src table o evs :
  loop_run src table o evs ->
  headers evs `prefix_of` table_headers table /\
  (forall u, o = Normal u -> headers evs = table_headers table).
Proof.
  induction 1 as [|density size rest r o evs Hr Hrun [IH1 IH2]
                  |density size rest pre c e Habort].
  - done.
  - rewrite !headers_app. unfold density_saves.
    rewrite saves_events_headers, density_head_headers.
    split; [by apply (prefix_cons _ _ _ IH1)|].
    intros u ->. simpl. by rewrite (IH2 u).
  - rewrite (density_abort_headers _ _ _ _ _ _ Habort).
    split; [|done]. by eexists.
Qed.


(** *** Which bitmap goes to which file *)

Lemma saves_events_elem r plan im path fmt params :
  Returned (Save im path fmt params) ∈ saves_events r plan <->
  im = r /\ (path, fmt, params) ∈ plan.
Proof.
  unfold saves_events. rewrite list_elem_of_bind. split.
  - intros ([[p f] ps] & Hin & Hplan). simpl in Hin.
    apply elem_of_cons in Hin as [[= -> -> -> ->]|Hin]; [done|].
    by apply list_elem_of_singleton in Hin.
  - intros [-> Hplan]. eexists. split; [|exact Hplan]. by left.
Qed.

Lemma density_saved src density size r n im path fmt params :
  Returned (Save im path fmt params)
    ∈ density_head src density size
        ++ saves_events r (take n (save_plan density)) ->
  im = r /\ exists k,
    save_plan density !! k = Some (path, fmt, params) /\
    forall j p f ps, (j <= k)%nat ->
      save_plan density !! j = Some (p, f, ps) ->
      Returned (Save r p f ps)
        ∈ density_head src density size
            ++ saves_events r (take n (save_plan density)).
Proof.
  rewrite elem_of_app, saves_events_elem. intros [Hin|[-> Hin]].
  { unfold density_head in Hin.
    repeat (apply elem_of_cons in Hin as [?|Hin]; [done|]).
    by apply elem_of_nil in Hin. }
  split; [done|]. apply elem_of_take in Hin as (k & Hk & Hlt).
  exists k. split; [done|]. intros j p f ps Hj Hp.
  rewrite elem_of_app, saves_events_elem. right. split; [done|].
  apply elem_of_take. exists j. split; [done|lia].
Qed.

Lemma loop_run_saved src table o evs im path fmt params :
  loop_run src table o evs ->
  Returned (Save im path fmt params) ∈ evs ->
  exists density size k,
    (density, size) ∈ table /\
    resize src (size, size) LANCZOS = inr im /\
    save_plan density !! k = Some (path, fmt, params) /\
    forall j p f ps, (j <= k)%nat ->
      save_plan density !! j = Some (p, f, ps) ->
      Returned (Save im p f ps) ∈ evs.
Proof.
  induction 1 as [|density size rest r o evs Hr Hrun IH
                  |density size rest pre c e Habort].
  - intros Hin. by apply elem_of_nil in Hin.
  - rewrite List.app_assoc, elem_of_app. intros [Hin|Hin].
    + unfold density_saves in Hin.
      rewrite <- (take_ge (save_plan density) 4) in Hin by done.
      apply density_saved in Hin as (-> & k & Hk & Hall).
      exists density, size, k. split_and!; [by left|done..|].
      intros j p f ps Hj Hp. apply elem_of_app. left.
      unfold density_saves.
      rewrite <- (take_ge (save_plan density) 4) by done. by eapply Hall.
    + destruct (IH Hin) as (d & s & k & Htab & Hres & Hk & Hall).
      exists d, s, k. split_and!; [by right|done..|].
      intros j p f ps Hj Hp. apply elem_of_app. right. by eapply Hall.
  - rewrite elem_of_app. intros [Hin|Hin]; cycle 1.
    { by apply list_elem_of_singleton in Hin. }
    destruct Habort as [e|e Hr|r n p0 f0 ps0 e Hr Hn].
    + apply list_elem_of_singleton in Hin. done.
    + repeat (apply elem_of_cons in Hin as [?|Hin]; [done|]).
      by apply elem_of_nil in Hin.
    + apply density_saved in Hin as (-> & k & Hk & Hall).
      exists density, size, k. split_and!; [by left|done..|].
      intros j p f ps Hj Hp. apply elem_of_app. left. by eapply Hall.
Qed.

(** A loop that completes has run every row of the table in full. *)
Lemma loop_run_complete src table u evs density size :
  loop_run src table (Normal u) evs ->
  (density, size) ∈ table ->
  exists r, resize src (size, size) LANCZOS = inr r /\
    forall ev, ev ∈ density_head src density size ++ density_saves density r ->
      ev ∈ evs.
Proof.
  remember (Normal u) as o eqn:Ho.
  induction 1 as [|d s rest r o evs Hr Hrun IH|]; [|..|done].
  - intros Hin. by apply elem_of_nil in Hin.
  - intros Hin. apply elem_of_cons in Hin as [[= -> ->]|Hin].
    + exists r. split; [done|]. intros ev Hev.
      rewrite List.app_assoc. apply elem_of_app. by left.
    + destruct (IH Ho Hin) as (r' & Hr' & Hall).
      exists r'. split; [done|]. intros ev Hev.
      rewrite List.app_assoc. apply elem_of_app. right. by apply Hall.
Qed.

End Logs.

(** ** The table of the script *)

Lemma outputs_ICON_SIZES : outputs ICON_SIZES = expected_outputs.
Proof. reflexivity. Qed.

Lemma expected_outputs_NoDup : NoDup expected_outputs.
Proof. apply (bool_decide_unpack _). by vm_compute. Qed.

Lemma densities_ICON_SIZES : ICON_SIZES.*1 = densities.
Proof. reflexivity. Qed.

Lemma mipmap_made density :
  density ∈ densities -> mipmap density ∈ dir_chain "" (output_dir density).
Proof.
  intros Hd. unfold densities in Hd.
  repeat (apply elem_of_cons in Hd as [->|Hd];
          [apply (bool_decide_unpack _); by vm_compute|]).
  by apply elem_of_nil in Hd.
Qed.

Lemma density_in_table density :
  density ∈ densities -> exists size, (density, size) ∈ ICON_SIZES.
Proof.
  rewrite <- densities_ICON_SIZES, list_elem_of_fmap.
  intros ([d s] & -> & Hin). by exists s.
Qed.

(** The position of a round file in the plan of a table row tells the
    density, and the plain file stands before it with the same settings. *)
Lemma round_in_plan density ext d s k fmt params :
  density ∈ densities -> ext ∈ ["png"; "webp"] -> (d, s) ∈ ICON_SIZES ->
  save_plan d !! k
    = Some (mipmap density +:+ "/ic_launcher_round." +:+ ext, fmt, params) ->
  d = density /\ exists j, (j <= k)%nat /\
    save_plan d !! j
      = Some (mipmap density +:+ "/ic_launcher." +:+ ext, fmt, params).
Proof.
  intros Hd Hext Hin Hk.
  unfold densities in Hd.
  repeat (apply elem_of_cons in Hd as [->|Hd]);
    [..|by apply elem_of_nil in Hd];
  (repeat (apply elem_of_cons in Hext as [->|Hext]);
    [..|by apply elem_of_nil in Hext]);
  (unfold ICON_SIZES in Hin;
   repeat (apply elem_of_cons in Hin as [[= -> ->]|Hin]);
    [..|by apply elem_of_nil in Hin]);
  destruct k as [|[|[|[|k]]]]; vm_compute in Hk; try discriminate Hk;
  injection Hk as <- <-; (split; [done|]);
  first [by exists 0%nat; split; [lia|] | by exists 2%nat; split; [lia|]].
Qed.

(** A file under [mipmap-<density>/] belongs to the plan of that density
    only, and the table gives the density one size. *)
Lemma plan_density density size d s name fmt params :
  (density, size) ∈ ICON_SIZES -> (d, s) ∈ ICON_SIZES ->
  (mipmap density +:+ "/" +:+ name, fmt, params) ∈ save_plan d ->
  d = density /\ s = size.
Proof.
  intros Hd Hin Hplan. unfold ICON_SIZES in Hd, Hin.
  repeat (apply elem_of_cons in Hd as [[= -> ->]|Hd]);
    [..|by apply elem_of_nil in Hd];
  (repeat (apply elem_of_cons in Hin as [[= -> ->]|Hin]);
    [..|by apply elem_of_nil in Hin]);
  try done;
  vm_compute in Hplan;
  repeat (apply elem_of_cons in Hplan as [Hplan|Hplan];
          [discriminate Hplan|]);
  by apply elem_of_nil in Hplan.
Qed.

Lemma table_headers_ICON_SIZES :
  table_headers ICON_SIZES =
  [ nl +:+ "Generating mdpi icons (48x48)...";
    nl +:+ "Generating hdpi icons (72x72)...";
    nl +:+ "Generating xhdpi icons (96x96)...";
    nl +:+ "Generating xxhdpi icons (144x144)...";
    nl +:+ "Generating xxxhdpi icons (192x192)..." ].
Proof. reflexivity. Qed.

(** ** The entries around the loop *)

Section Script.
Context `{PIL}.

Lemma conversion_ok img src conv :
  conversion img src conv ->
  Forall (fun ev => is_raised ev = false) conv /\
  touched conv = [] /\ headers conv = [] /\ announced conv.
Proof. destruct 1; by repeat constructor. Qed.

Lemma conversion_fun img src1 conv1 src2 conv2 :
  conversion img src1 conv1 -> conversion img src2 conv2 -> src1 = src2.
Proof. do 2 destruct 1; congruence. Qed.

Lemma closing_ok o :
  Forall (fun ev => is_raised ev = false) (closing o) /\
  touched (closing o) = [] /\ headers (closing o) = [] /\
  announced (closing o).
Proof. destruct o; by repeat constructor. Qed.

Lemma script_touched img src conv o evs :
  conversion img src conv ->
  touched (loaded_events img ++ conv ++ evs ++ closing o) = touched evs.
Proof.
  intros (_ & Hconv & _)%conversion_ok.
  destruct (closing_ok o) as (_ & Hclose & _).
  by rewrite !touched_app, Hconv, Hclose, app_nil_r.
Qed.

Lemma script_headers img src conv o evs :
  conversion img src conv ->
  headers (loaded_events img ++ conv ++ evs ++ closing o) = headers evs.
Proof.
  intros (_ & _ & Hconv & _)%conversion_ok.
  destruct (closing_ok o) as (_ & _ & Hclose & _).
  by rewrite !headers_app, Hconv, Hclose, app_nil_r.
Qed.

Lemma script_saved img src conv o evs im path fmt params :
  conversion img src conv ->
  Returned (Save im path fmt params)
    ∈ loaded_events img ++ conv ++ evs ++ closing o ->
  Returned (Save im path fmt params) ∈ evs.
Proof.
  intros Hconv. rewrite !elem_of_app. intros [Hin|[Hin|[Hin|Hin]]]; [..|done|].
  - unfold loaded_events in Hin.
    repeat (apply elem_of_cons in Hin as [?|Hin]; [done|]).
    by apply elem_of_nil in Hin.
  - destruct Hconv; [by apply elem_of_nil in Hin|].
    by apply list_elem_of_singleton in Hin.
  - destruct o; [|by apply elem_of_nil in Hin].
    by apply list_elem_of_singleton in Hin.
Qed.


Lemma script_calls img src conv o evs :
  conversion img src conv ->
  calls (loaded_events img ++ conv ++ evs ++ closing o) =
  Open SOURCE_ICON :: calls conv ++ calls evs.
Proof.
  intros _. rewrite !calls_app.
  replace (calls (closing o)) with (@nil Call) by by destruct o.
  by rewrite app_nil_r.
Qed.

Lemma script_run_raised img o evs :
  script_run img o evs ->
  match o with
  | Normal _ => Forall (fun ev => is_raised ev = false) evs
  | Raise e => exists pre c,
      evs = pre ++ [Raised c e] /\
      Forall (fun ev => is_raised ev = false) pre
  end.
Proof.
  destruct 1 as [e Hmode Hconv|src conv o lev Hconv Hloop].
  - eexists _, _. split; [done|]. by repeat constructor.
  - apply loop_run_raised in Hloop.
    destruct (conversion_ok _ _ _ Hconv) as (Hc & _).
    assert (Forall (fun ev => is_raised ev = false) (loaded_events img))
      as Hl by by repeat constructor.
    destruct o as [u|e].
    + rewrite !Forall_app. split_and!; [done..|]. by repeat constructor.
    + destruct Hloop as (pre & c & -> & Hpre).
      exists (loaded_events img ++ conv ++ pre), c.
      split; [by rewrite app_nil_r, <- !List.app_assoc|].
      rewrite !Forall_app. by split_and!.
Qed.

Lemma script_run_touched img o evs :
  script_run img o evs ->
  touched evs `prefix_of` expected_outputs /\
  (forall u, o = Normal u -> touched evs = expected_outputs).
Proof.
  destruct 1 as [e Hmode Hconv|src conv o lev Hconv Hloop].
  - split; [by eexists|done].
  - rewrite (script_touched _ _ _ _ _ Hconv), <- outputs_ICON_SIZES.
    exact (loop_run_touched _ _ _ _ Hloop).
Qed.

Lemma script_run_NoDup img o evs :
  script_run img o evs -> NoDup (touched evs).
Proof.
  intros [[k Hk] _]%script_run_touched.
  pose proof expected_outputs_NoDup as Hall. rewrite Hk in Hall.
  by apply NoDup_app in Hall as (? & _).
Qed.

Lemma script_run_announced img o evs :
  script_run img o evs -> announced evs.
Proof.
  destruct 1 as [e Hmode Hconv|src conv o lev Hconv Hloop]; [done|].
  destruct (conversion_ok _ _ _ Hconv) as (_ & _ & _ & Hc).
  destruct (closing_ok o) as (_ & _ & _ & Hclose).
  apply loop_run_announced in Hloop.
  by repeat (apply announced_app; [done|]).
Qed.

(** A save that returned, in a run of the script: the bitmap is the
    resize of the source for a row of the table, and the file is in the
    plan of that row. *)
Lemma script_run_saved img o evs im path fmt params :
  script_run img o evs ->
  Returned (Save im path fmt params) ∈ evs ->
  exists src conv lev density size k,
    conversion img src conv /\
    loop_run src ICON_SIZES o lev /\
    evs = loaded_events img ++ conv ++ lev ++ closing o /\
    (density, size) ∈ ICON_SIZES /\
    resize src (size, size) LANCZOS = inr im /\
    save_plan density !! k = Some (path, fmt, params).
Proof.
  destruct 1 as [e Hmode Hconv|src conv o lev Hconv Hloop]; intros Hin.
  - unfold loaded_events in Hin. simpl in Hin.
    repeat (apply elem_of_cons in Hin as [?|Hin]; [done|]).
    by apply elem_of_nil in Hin.
  - apply (script_saved _ _ _ _ _ _ _ _ _ Hconv) in Hin.
    destruct (loop_run_saved _ _ _ _ _ _ _ _ Hloop Hin)
      as (d & s & k & Htab & Hres & Hk & _).
    by exists src, conv, lev, d, s, k.
Qed.

(** A call of the loop, in a run of the script. *)
Lemma script_run_calls img o evs c :
  script_run img o evs ->
  c ∈ calls evs ->
  c = Open SOURCE_ICON \/ c = Convert img "RGBA" \/
  exists src conv density size,
    conversion img src conv /\ (density, size) ∈ ICON_SIZES /\
    density_call src density size c.
Proof.
  destruct 1 as [e Hmode Hconv|src conv o lev Hconv Hloop].
  - simpl. intros [->|[->|?%elem_of_nil]%elem_of_cons]%elem_of_cons;
      by auto.
  - rewrite (script_calls _ _ _ _ _ Hconv), elem_of_cons, elem_of_app.
    intros [->|[Hc|Hc]]; [by left| |].
    + destruct Hconv; [by apply elem_of_nil in Hc|].
      apply list_elem_of_singleton in Hc. by right; left.
    + destruct (loop_run_calls _ _ _ _ _ Hloop Hc) as (d & s & Hin & Hcall).
      do 2 right. by exists src, conv, d, s.
Qed.

Lemma prefix_snoc_lookup {A} (l : list A) x full :
  l ++ [x] `prefix_of` full ->
  full !! length l = Some x /\ l = take (length l) full.
Proof.
  intros [k ->]. rewrite <- List.app_assoc. split.
  - by rewrite lookup_app_r, Nat.sub_diag by done.
  - by rewrite take_app_length.
Qed.

End Script.


(** * The claims *)

Section Claims.
Context {pil : PIL} {os : OS}.

(** C1 (as amended): when the source image loads and the run returns
    normally, that is, when no later call raises, [generate_icons]
    makes exactly twenty saves, all of which return: the four files
    [ic_launcher.png], [ic_launcher_round.png], [ic_launcher.webp],
    [ic_launcher_round.webp] in [app/src/main/res/mipmap-<density>/] for
    each of mdpi, hdpi, xhdpi, xxhdpi, xxxhdpi, in that order.  All twenty
    files and the five directories exist afterwards, and no other path of
    the file store has changed. *)
Theorem complete_run_writes_twenty_files w w' img :
  Image_open (at_open w) SOURCE_ICON = inr img ->
  generate_icons w = (Normal tt, w') ->
  exists evs, log w' = log w ++ evs /\
    written evs = expected_outputs /\
    touched evs = expected_outputs /\
    length (written evs) = 20%nat /\
    (forall density, density ∈ densities ->
       filter (fun path => starts_with (mipmap density +:+ "/") path = true)
              (written evs)
       = (fun name => mipmap density +:+ "/" +:+ name) <$> launcher_files) /\
    (forall density, density ∈ densities -> mipmap density ∈ dirs w') /\
    (forall path, path ∈ expected_outputs -> is_Some (files w' !! path)) /\
    (forall path, path ∉ expected_outputs -> files w' !! path = files w !! path).
Proof.
  intros Hopen Hrun.
  destruct (generate_icons_sound _ _ _ _ Hopen Hrun)
    as (evs & Hlog & Hrep & Hscript).
  exists evs. split; [done|].
  inversion Hscript as [|src conv o lev Hconv Hloop Ho Hevs]; subst.
  pose proof (loop_run_raised _ _ _ _ Hloop) as Hok. cbn beta iota in Hok.
  destruct (loop_run_touched _ _ _ _ Hloop) as [_ Htouched].
  specialize (Htouched tt eq_refl). rewrite outputs_ICON_SIZES in Htouched.
  assert (touched (loaded_events img ++ conv ++ lev ++ closing (Normal tt))
          = expected_outputs) as Ht.
  { by rewrite (script_touched _ _ _ _ _ Hconv). }
  assert (written (loaded_events img ++ conv ++ lev ++ closing (Normal tt))
          = expected_outputs) as Hw.
  { rewrite <- Ht. apply written_touched.
    destruct (conversion_ok _ _ _ Hconv) as (Hc & _).
    rewrite !Forall_app. split_and!; [by repeat constructor|done..|].
    by repeat constructor. }
  split_and!.
  - done.
  - done.
  - by rewrite Hw.
  - intros density Hd. rewrite Hw. unfold densities in Hd.
    repeat (apply elem_of_cons in Hd as [->|Hd]; [by vm_compute|]).
    by apply elem_of_nil in Hd.
  - intros density Hd.
    destruct (density_in_table _ Hd) as [size Hin].
    destruct (loop_run_complete _ _ _ _ _ _ Hloop Hin) as (r & _ & Hall).
    eapply (replays_made _ _ _ (output_dir density) true Hrep).
    + rewrite !elem_of_app. right; right; left.
      apply Hall. apply elem_of_app. left. right. by left.
    + apply elem_of_list_to_set. by apply mipmap_made.
  - intros path Hp. rewrite <- Hw in Hp.
    apply elem_of_written in Hp as (im & fmt & params & Hin).
    erewrite (replays_written _ _ _ _ _ _ _ Hrep); [done| |exact Hin].
    rewrite Ht. apply expected_outputs_NoDup.
  - intros path Hp. apply (replays_files_other _ _ _ _ Hrep). by rewrite Ht.
Qed.

(** C2 (as amended): if [Image.open] of [app/src/main/res/Icon.png]
    raises, [generate_icons] returns normally after printing
    ["Error loading source icon: "] followed by the text of the
    exception; it makes no other call, so no directory is created and the
    file store is left as it was.  (Only the [Image.open] call is inside
    the [try]: a decoding failure that surfaces later, in [convert] or
    [resize], is not handled this way.) *)
Theorem load_failure_is_reported w e :
  Image_open (at_open w) SOURCE_ICON = inl e ->
  exists w', generate_icons w = (Normal tt, w') /\
    log w' = log w ++
      [ Printed "Loading source icon: app/src/main/res/Icon.png";
        Raised (Open "app/src/main/res/Icon.png") e;
        Printed ("Error loading source icon: " +:+ str_exn e) ] /\
    files w' = files w /\
    dirs w' = dirs w.
Proof.
  intros Hopen. eexists. split; [by apply generate_icons_load_failure|].
  done.
Qed.

(** C3: in every run and for every density, a round file that is written
    ([ic_launcher_round.png] or [ic_launcher_round.webp]) is saved from
    the very bitmap, with the same format and keyword arguments, as the
    plain file of the same extension, which was written before it; that
    bitmap is the result of the [resize] call itself, and when the run
    ends both files hold the same bytes. *)
Theorem round_icon_is_a_plain_copy w o w' img evs density ext im fmt params :
  Image_open (at_open w) SOURCE_ICON = inr img ->
  generate_icons w = (o, w') ->
  log w' = log w ++ evs ->
  density ∈ densities ->
  ext ∈ ["png"; "webp"] ->
  Returned (Save im (mipmap density +:+ "/ic_launcher_round." +:+ ext)
                 fmt params) ∈ evs ->
  Returned (Save im (mipmap density +:+ "/ic_launcher." +:+ ext)
                 fmt params) ∈ evs /\
  (exists src conv size, conversion img src conv /\
     (density, size) ∈ ICON_SIZES /\
     resize src (size, size) LANCZOS = inr im) /\
  files w' !! (mipmap density +:+ "/ic_launcher_round." +:+ ext)
    = Some (encode im fmt params) /\
  files w' !! (mipmap density +:+ "/ic_launcher." +:+ ext)
    = Some (encode im fmt params).
Proof.
  intros Hopen Hrun Hlog Hd Hext Hround.
  destruct (generate_icons_sound _ _ _ _ Hopen Hrun)
    as (evs' & Hlog' & Hrep & Hscript).
  rewrite Hlog in Hlog'. apply app_inv_head in Hlog' as <-.
  pose proof (script_run_NoDup _ _ _ Hscript) as Hnd.
  assert (Returned (Save im (mipmap density +:+ "/ic_launcher." +:+ ext)
                         fmt params) ∈ evs /\
          exists src conv size, conversion img src conv /\
            (density, size) ∈ ICON_SIZES /\
            resize src (size, size) LANCZOS = inr im) as [Hplain Hres].
  { destruct Hscript as [e Hmode Hconv|src conv o lev Hconv Hloop].
    - unfold loaded_events in Hround. simpl in Hround.
      repeat (apply elem_of_cons in Hround as [?|Hround]; [done|]).
      by apply elem_of_nil in Hround.
    - apply (script_saved _ _ _ _ _ _ _ _ _ Hconv) in Hround.
      destruct (loop_run_saved _ _ _ _ _ _ _ _ Hloop Hround)
        as (d & s & k & Hin & Hresize & Hk & Hall).
      destruct (round_in_plan _ _ _ _ _ _ _ Hd Hext Hin Hk)
        as (-> & j & Hj & Hplain).
      split; [|by eauto 10].
      rewrite !elem_of_app. right; right; left. by eapply Hall. }
  split_and!; [done..| |].
  - exact (replays_written _ _ _ _ _ _ _ Hrep Hnd Hround).
  - exact (replays_written _ _ _ _ _ _ _ Hrep Hnd Hplain).
Qed.



(** C5: every [resize] call asks for the square [(s, s)] of a row of the
    table and for the LANCZOS filter, whatever the size of the source;
    every bitmap saved under [mipmap-<density>/] therefore has size
    exactly [(s, s)] for that density's [s] (given that [resize] does what
    Pillow documents); and a run that completes has resized for every
    row. *)
Theorem every_resize_is_square_lanczos `{!PILContract} w o w' img evs :
  Image_open (at_open w) SOURCE_ICON = inr img ->
  generate_icons w = (o, w') ->
  log w' = log w ++ evs ->
  (forall im sz f, Resize im sz f ∈ calls evs ->
     f = LANCZOS /\
     exists density s, (density, s) ∈ ICON_SIZES /\ sz = (s, s)) /\
  (forall density s name im fmt params,
     (density, s) ∈ ICON_SIZES ->
     Save im (mipmap density +:+ "/" +:+ name) fmt params ∈ calls evs ->
     size im = (s, s)) /\
  (o = Normal tt ->
   forall density s, (density, s) ∈ ICON_SIZES ->
     exists src r,
       Returned (Resize src (s, s) LANCZOS) ∈ evs /\
       resize src (s, s) LANCZOS = inr r /\ size r = (s, s)).
Proof.
  intros Hopen Hrun Hlog.
  destruct (generate_icons_sound _ _ _ _ Hopen Hrun)
    as (evs' & Hlog' & Hrep & Hscript).
  rewrite Hlog in Hlog'. apply app_inv_head in Hlog' as <-.
  split_and!.
  - intros im sz f Hc.
    destruct (script_run_calls _ _ _ _ Hscript Hc)
      as [?|[?|(src & conv & d & s & Hconv & Hin & Hcall)]]; [done..|].
    destruct Hcall as [?|[[= -> -> ->]|(r & p & fm & ps & _ & _ & ?)]];
      [done| |done].
    split; [done|]. by exists d, s.
  - intros density s name im fmt params Hd Hc.
    destruct (script_run_calls _ _ _ _ Hscript Hc)
      as [?|[?|(src & conv & d & s' & Hconv & Hin & Hcall)]]; [done..|].
    destruct Hcall as [?|[?|(r & p & fm & ps & Hr & Hplan & Heq)]];
      [done..|].
    injection Heq as -> <- <- <-.
    destruct (plan_density _ _ _ _ _ _ _ Hd Hin Hplan) as [-> ->].
    by eapply resize_size.
  - intros -> density s Hd.
    inversion Hscript as [|src conv o' lev Hconv Hloop]; subst.
    destruct (loop_run_complete _ _ _ _ _ _ Hloop Hd) as (r & Hr & Hall).
    exists src, r. split_and!; [|done|by eapply resize_size].
    rewrite !elem_of_app. right; right; left. apply Hall.
    apply elem_of_app. left. do 2 right. by left.
Qed.

(** C6: the table is mdpi 48, hdpi 72, xhdpi 96, xxhdpi 144,
    xxxhdpi 192, and in every run, from any world, the iterations open in
    that order: the [Generating ...] lines printed are an initial part of
    the five lines in table order, and all five when the run completes. *)
Theorem densities_are_visited_in_table_order w o w' img evs :
  Image_open (at_open w) SOURCE_ICON = inr img ->
  generate_icons w = (o, w') ->
  log w' = log w ++ evs ->
  ICON_SIZES = [("mdpi", 48); ("hdpi", 72); ("xhdpi", 96);
                ("xxhdpi", 144); ("xxxhdpi", 192)] /\
  headers evs `prefix_of`
    [ nl +:+ "Generating mdpi icons (48x48)...";
      nl +:+ "Generating hdpi icons (72x72)...";
      nl +:+ "Generating xhdpi icons (96x96)...";
      nl +:+ "Generating xxhdpi icons (144x144)...";
      nl +:+ "Generating xxxhdpi icons (192x192)..." ] /\
  (o = Normal tt ->
   headers evs =
    [ nl +:+ "Generating mdpi icons (48x48)...";
      nl +:+ "Generating hdpi icons (72x72)...";
      nl +:+ "Generating xhdpi icons (96x96)...";
      nl +:+ "Generating xxhdpi icons (144x144)...";
      nl +:+ "Generating xxxhdpi icons (192x192)..." ]).
Proof.
  intros Hopen Hrun Hlog.
  destruct (generate_icons_sound _ _ _ _ Hopen Hrun)
    as (evs' & Hlog' & Hrep & Hscript).
  rewrite Hlog in Hlog'. apply app_inv_head in Hlog' as <-.
  split; [done|]. rewrite <- table_headers_ICON_SIZES.
  destruct Hscript as [e Hmode Hconv|src conv o lev Hconv Hloop].
  - split; [by eexists|done].
  - rewrite (script_headers _ _ _ _ _ Hconv).
    destruct (loop_run_headers _ _ _ _ Hloop) as [Hpre Hall].
    split; [done|]. intros ->. by apply (Hall tt).
Qed.


(** C7: once the image is loaded, a call that raises (the conversion,
    [makedirs], [resize] or any [save]) ends the run with that very
    exception: it is the last entry of the log, so nothing is retried and
    nothing is cleaned up, and every file saved before it still holds the
    bytes that were written. *)
Theorem later_failures_propagate w o w' img evs c e :
  Image_open (at_open w) SOURCE_ICON = inr img ->
  generate_icons w = (o, w') ->
  log w' = log w ++ evs ->
  Raised c e ∈ evs ->
  o = Raise e /\
  (exists pre, evs = pre ++ [Raised c e] /\
     Forall (fun ev => is_raised ev = false) pre) /\
  (forall im path fmt params,
     Returned (Save im path fmt params) ∈ evs ->
     files w' !! path = Some (encode im fmt params)).
Proof.
  intros Hopen Hrun Hlog Hraised.
  destruct (generate_icons_sound _ _ _ _ Hopen Hrun)
    as (evs' & Hlog' & Hrep & Hscript).
  rewrite Hlog in Hlog'. apply app_inv_head in Hlog' as <-.
  pose proof (script_run_NoDup _ _ _ Hscript) as Hnd.
  pose proof (script_run_raised _ _ _ Hscript) as Hshape.
  destruct o as [u|e'].
  - rewrite Forall_forall in Hshape. by apply Hshape in Hraised.
  - destruct Hshape as (pre & c' & -> & Hpre).
    apply elem_of_app in Hraised as [Hin|Hin].
    { rewrite Forall_forall in Hpre. by apply Hpre in Hin. }
    apply list_elem_of_singleton in Hin as [= -> ->].
    split_and!; [done|by exists pre|].
    intros im path fmt params Hsaved.
    exact (replays_written _ _ _ _ _ _ _ Hrep Hnd Hsaved).
Qed.


(** C9: the loop works on one bitmap, the loaded image or its RGBA
    conversion, and never replaces it: that bitmap is the receiver of
    every [resize] call, and every bitmap saved is the direct result of
    resizing it to the size of the table row whose plan holds the file.
    What is written for a density thus depends on the source and on that
    row only, not on the iterations before it. *)
Theorem every_bitmap_is_resized_from_the_source w o w' img evs :
  Image_open (at_open w) SOURCE_ICON = inr img ->
  generate_icons w = (o, w') ->
  log w' = log w ++ evs ->
  (forall im sz f, Resize im sz f ∈ calls evs ->
     exists conv, conversion img im conv) /\
  (forall im path fmt params, Save im path fmt params ∈ calls evs ->
     exists src conv density size,
       conversion img src conv /\
       (density, size) ∈ ICON_SIZES /\
       (path, fmt, params) ∈ save_plan density /\
       resize src (size, size) LANCZOS = inr im) /\
  (forall src1 conv1 src2 conv2,
     conversion img src1 conv1 -> conversion img src2 conv2 -> src1 = src2).
Proof.
  intros Hopen Hrun Hlog.
  destruct (generate_icons_sound _ _ _ _ Hopen Hrun)
    as (evs' & Hlog' & Hrep & Hscript).
  rewrite Hlog in Hlog'. apply app_inv_head in Hlog' as <-.
  split_and!.
  - intros im sz f Hc.
    destruct (script_run_calls _ _ _ _ Hscript Hc)
      as [?|[?|(src & conv & d & s & Hconv & Hin & Hcall)]]; [done..|].
    destruct Hcall as [?|[[= -> _ _]|(r & p & fm & ps & _ & _ & ?)]];
      [done| |done].
    by exists conv.
  - intros im path fmt params Hc.
    destruct (script_run_calls _ _ _ _ Hscript Hc)
      as [?|[?|(src & conv & d & s & Hconv & Hin & Hcall)]]; [done..|].
    destruct Hcall as [?|[?|(r & p & fm & ps & Hr & Hplan & Heq)]];
      [done..|].
    injection Heq as -> -> -> ->. by exists src, conv, d, s.
  - apply conversion_fun.
Qed.


End Claims.

(** * Further properties of the script *)

(** ** What is printed *)

Lemma not_closing_line line :
  starts_with nl line = false \/ is_header line = true
    \/ is_saved line = true ->
  line ≠ closing_line.
Proof. intros [Hl|[Hl|Hl]] ->; done. Qed.

Section Printing.
Context `{PIL}.

Lemma saved_lines_app evs1 evs2 :
  saved_lines (evs1 ++ evs2) = saved_lines evs1 ++ saved_lines evs2.
Proof. unfold saved_lines. by rewrite stdout_app, filter_app. Qed.

Lemma saves_events_written r plan :
  written (saves_events r plan) = plan_paths plan.
Proof.
  by rewrite (written_touched _ (saves_events_ok r plan)),
    saves_events_touched.
Qed.

Lemma saves_events_saved_lines r plan :
  saved_lines (saves_events r plan) = saved_line <$> plan_paths plan.
Proof.
  induction plan as [|[[path fmt] params] plan IH]; [done|].
  rewrite saves_events_cons, saved_lines_app, IH. done.
Qed.

Lemma saved_lines_header density size evs :
  saved_lines (Printed (header_line density size) :: evs) = saved_lines evs.
Proof.
  unfold saved_lines. cbn [stdout omap list_omap].
  by rewrite filter_cons_False by done.
Qed.

Lemma density_head_saved_lines src density size :
  saved_lines (density_head src density size) = [].
Proof. unfold density_head. by rewrite saved_lines_header. Qed.

Lemma density_abort_saved_lines src density size pre c e :
  density_abort src density size pre c e ->
  saved_lines (pre ++ [Raised c e])
  = saved_line <$> written (pre ++ [Raised c e]).
Proof.
  destruct 1; [cbn [app]; rewrite saved_lines_header; reflexivity..|].
  rewrite !saved_lines_app, !written_app, density_head_saved_lines.
  rewrite saves_events_saved_lines, saves_events_written.
  change (written (density_head src density size)) with (@nil string).
  change (written [Raised (Save r path fmt params) e]) with (@nil string).
  change (saved_lines [Raised (Save r path fmt params) e])
    with (@nil string).
  by rewrite !app_nil_r.
Qed.

(** In the loop the [Saved] lines are those of the files written. *)
Lemma loop_run_saved_lines src table o evs :
  loop_run src table o evs -> saved_lines evs = saved_line <$> written evs.
Proof.
  induction 1 as [|density size rest r o evs Hr Hrun IH
                  |density size rest pre c e Habort].
  - done.
  - unfold density_saves.
    rewrite !saved_lines_app, !written_app, !fmap_app, IH.
    rewrite density_head_saved_lines, saves_events_saved_lines,
      saves_events_written.
    by change (written (density_head src density size)) with (@nil string).
  - by eapply density_abort_saved_lines.
Qed.

(** Every line of the loop opens an iteration or reports a file. *)
Lemma loop_run_stdout src table o evs :
  loop_run src table o evs ->
  Forall (fun line => is_header line = true \/ is_saved line = true)
         (stdout evs).
Proof.
  assert (forall r plan,
            Forall (fun line => is_header line = true \/ is_saved line = true)
                   (stdout (saves_events r plan))) as Hsaves.
  { intros r plan. induction plan as [|[[path fmt] params] plan IH];
      [constructor|].
    rewrite saves_events_cons, stdout_app. apply Forall_app. split; [|done].
    simpl. constructor; [by right|constructor]. }
  induction 1 as [|density size rest r o evs Hr Hrun IH
                  |density size rest pre c e Habort].
  - constructor.
  - rewrite !stdout_app, !Forall_app. split_and!; [|apply Hsaves|done].
    simpl. constructor; [by left|constructor].
  - destruct Habort.
    + simpl. constructor; [by left|constructor].
    + simpl. constructor; [by left|constructor].
    + rewrite !stdout_app, !Forall_app. split_and!; [|apply Hsaves|done].
      simpl. constructor; [by left|constructor].
Qed.

Lemma closing_line_not_in_loop src table o evs :
  loop_run src table o evs -> closing_line ∉ stdout evs.
Proof.
  intros Hrun%loop_run_stdout Hin. rewrite Forall_forall in Hrun.
  apply (not_closing_line closing_line); [|done].
  right. exact (Hrun _ Hin).
Qed.

End Printing.

(** ** Every run, whether the image loads or not *)

(** A line that does not start with a newline is not the closing line. *)
Ltac not_closing Heq :=
  exfalso; symmetry in Heq; revert Heq;
  apply not_closing_line; left; reflexivity.

Section Runs.
Context {pil : PIL} {os : OS}.

Lemma generate_icons_cases w o w' evs :
  generate_icons w = (o, w') ->
  log w' = log w ++ evs ->
  (exists e,
     Image_open (at_open w) SOURCE_ICON = inl e /\
     o = Normal tt /\
     evs = [ Printed ("Loading source icon: " +:+ SOURCE_ICON);
             Raised (Open SOURCE_ICON) e;
             Printed ("Error loading source icon: " +:+ str_exn e) ] /\
     files w' = files w /\ dirs w' = dirs w) \/
  (exists img,
     Image_open (at_open w) SOURCE_ICON = inr img /\
     script_run img o evs /\
     replays evs (store w) (store w')).
Proof.
  intros Hrun Hlog.
  destruct (Image_open (at_open w) SOURCE_ICON) as [e|img] eqn:Hopen.
  - left. exists e. rewrite (generate_icons_load_failure _ _ Hopen) in Hrun.
    injection Hrun as <- <-. cbn [log] in Hlog.
    apply app_inv_head in Hlog as <-. done.
  - right. exists img.
    destruct (generate_icons_sound _ _ _ _ Hopen Hrun)
      as (evs' & Hlog' & Hrep & Hscript).
    rewrite Hlog in Hlog'. by apply app_inv_head in Hlog' as <-.
Qed.

(** X1: the line ["✓ All icons generated successfully!"] is printed
    exactly when the image loaded and the run returned normally, and
    then it is the last entry of the log. *)
Theorem success_line_iff_complete w o w' evs :
  generate_icons w = (o, w') ->
  log w' = log w ++ evs ->
  (closing_line ∈ stdout evs <->
   o = Normal tt /\
   exists img, Image_open (at_open w) SOURCE_ICON = inr img) /\
  (closing_line ∈ stdout evs -> last evs = Some (Printed closing_line)).
Proof.
  intros Hrun Hlog.
  destruct (generate_icons_cases _ _ _ _ Hrun Hlog)
    as [(e & Hopen & -> & -> & _)|(img & Hopen & Hscript & _)].
  - assert (closing_line ∉ stdout
              [ Printed ("Loading source icon: " +:+ SOURCE_ICON);
                Raised (Open SOURCE_ICON) e;
                Printed ("Error loading source icon: " +:+ str_exn e) ])
      as Hnot.
    { simpl. intros [Heq|[Heq|Hin%elem_of_nil]%elem_of_cons]%elem_of_cons;
        [..|done]; not_closing Heq. }
    split; [|done]. split; [done|]. intros [_ [img Himg]]. congruence.
  - destruct Hscript as [e Hmode Hconv|src conv o lev Hconv Hloop].
    + assert (closing_line ∉ stdout
                (loaded_events img ++ [Raised (Convert img "RGBA") e]))
        as Hnot.
      { simpl. intros [Heq|[Heq|Hin%elem_of_nil]%elem_of_cons]%elem_of_cons;
          [..|done]; not_closing Heq. }
      split; [|done]. split; [done|]. by intros [? _].
    + assert (closing_line ∉ stdout (loaded_events img ++ conv ++ lev))
        as Hnot.
      { rewrite !stdout_app, !elem_of_app. intros [Hin|[Hin|Hin]].
        - simpl in Hin.
          apply elem_of_cons in Hin
            as [Heq|[Heq|Hin%elem_of_nil]%elem_of_cons]; [..|done];
            not_closing Heq.
        - destruct Hconv; by apply elem_of_nil in Hin.
        - by apply (closing_line_not_in_loop _ _ _ _ Hloop). }
      rewrite !List.app_assoc, <- (List.app_assoc (loaded_events img)).
      destruct o as [[]|e]; cbn [closing].
      * split.
        -- split; [by eauto|]. intros _. rewrite stdout_app.
           apply elem_of_app. right. by left.
        -- intros _. apply last_snoc.
      * rewrite app_nil_r. split; [|done]. split; [done|]. by intros [? _].
Qed.

(** X2: in every run, whatever its outcome, only the twenty output
    paths can change in the file store; the source icon in particular is
    never written. *)
Theorem only_the_output_paths_change w o w' :
  generate_icons w = (o, w') ->
  (forall path, path ∉ expected_outputs ->
     files w' !! path = files w !! path) /\
  files w' !! SOURCE_ICON = files w !! SOURCE_ICON.
Proof.
  intros Hrun.
  assert (forall path, path ∉ expected_outputs ->
            files w' !! path = files w !! path) as Hother.
  { intros path Hpath.
    pose proof (generate_icons_appends w) as Hlog. rewrite Hrun in Hlog.
    destruct (generate_icons_cases _ _ _ _ Hrun Hlog)
      as [(e & _ & _ & _ & -> & _)|(img & Hopen & Hscript & Hrep)]; [done|].
    apply (replays_files_other _ _ _ _ Hrep). intros Hin.
    destruct (script_run_touched _ _ _ Hscript) as [[k Hk] _].
    apply Hpath. rewrite Hk. apply elem_of_app. by left. }
  split; [done|]. apply Hother.
  apply (bool_decide_unpack _). by vm_compute.
Qed.

(** X6: every run opens exactly one file for reading: its first call is
    [Image.open] on [app/src/main/res/Icon.png], and no later call is an
    [Image.open]. *)
Theorem source_is_opened_once w o w' evs :
  generate_icons w = (o, w') ->
  log w' = log w ++ evs ->
  exists rest,
    calls evs = Open "app/src/main/res/Icon.png" :: rest /\
    Forall (fun c => is_open c = false) rest.
Proof.
  intros Hrun Hlog.
  destruct (generate_icons_cases _ _ _ _ Hrun Hlog)
    as [(e & _ & _ & -> & _)|(img & Hopen & Hscript & _)].
  - exists []. split; [done|constructor].
  - destruct Hscript as [e Hmode Hconv|src conv o lev Hconv Hloop].
    + exists [Convert img "RGBA"]. split; [done|by repeat constructor].
    + rewrite (script_calls _ _ _ _ _ Hconv). eexists. split; [done|].
      apply Forall_app. split.
      * destruct Hconv; by repeat constructor.
      * apply Forall_forall. intros c Hc.
        destruct (loop_run_calls _ _ _ _ _ Hloop Hc)
          as (d & s & _ & [->|[->|(r & p & f & ps & _ & _ & ->)]]); done.
Qed.

(** X7: when the loaded image is not RGBA and its conversion raises, the
    run ends with that exception right after the conversion: no
    directory is made and no file is touched. *)
Theorem conversion_failure_leaves_no_output w o w' img e :
  Image_open (at_open w) SOURCE_ICON = inr img ->
  mode img ≠ "RGBA" ->
  convert img "RGBA" = inl e ->
  generate_icons w = (o, w') ->
  o = Raise e /\
  log w' = log w ++
    [ Printed "Loading source icon: app/src/main/res/Icon.png";
      Returned (Open "app/src/main/res/Icon.png");
      Printed ("Source icon size: " +:+ repr_size (size img));
      Raised (Convert img "RGBA") e ] /\
  files w' = files w /\
  dirs w' = dirs w.
Proof.
  intros Hopen Hmode Hconv Hrun.
  destruct (generate_icons_sound _ _ _ _ Hopen Hrun)
    as (evs & Hlog & Hrep & Hscript).
  destruct Hscript as [e' _ Hconv'|src conv o lev Hconv' Hloop].
  - assert (e' = e) as -> by congruence.
    split; [done|]. split; [done|].
    simpl in Hrep. destruct Hrep as (? & -> & ? & -> & ? & -> & ? & -> & Heq).
    by injection Heq as -> ->.
  - destruct Hconv'; congruence.
Qed.

(** X8: the progress output is faithful: in every run the [Saved] lines
    printed are, in order, exactly those of the files written. *)
Theorem saved_lines_report_the_files_written w o w' evs :
  generate_icons w = (o, w') ->
  log w' = log w ++ evs ->
  saved_lines evs = (fun path => "  ✓ Saved: " +:+ path) <$> written evs.
Proof.
  intros Hrun Hlog.
  destruct (generate_icons_cases _ _ _ _ Hrun Hlog)
    as [(e & _ & _ & -> & _)|(img & Hopen & Hscript & _)]; [done|].
  destruct Hscript as [e Hmode Hconv|src conv o lev Hconv Hloop]; [done|].
  rewrite !saved_lines_app, !written_app.
  rewrite (loop_run_saved_lines _ _ _ _ Hloop).
  assert (saved_lines conv = [] /\ written conv = []) as [-> ->]
    by by destruct Hconv.
  assert (saved_lines (closing o) = [] /\ written (closing o) = [])
    as [-> ->] by by destruct o.
  by rewrite !app_nil_r.
Qed.

End Runs.

(** ** Directories *)

Lemma dir_chain_output_dirs density size :
  (density, size) ∈ ICON_SIZES ->
  dir_chain "" (output_dir density) ⊆ output_dirs.
Proof.
  intros Hin. unfold ICON_SIZES in Hin.
  repeat (apply elem_of_cons in Hin as [[= -> ->]|Hin];
          [apply (bool_decide_unpack _); by vm_compute|]).
  by apply elem_of_nil in Hin.
Qed.

Lemma plan_names density :
  Forall (fun entry => exists name,
            name ∈ launcher_files /\
            entry.1.1 = path_join (output_dir density) name)
         (save_plan density).
Proof.
  unfold save_plan, launcher_files.
  repeat constructor; eexists; (split; [|reflexivity]);
    apply (bool_decide_unpack _); by vm_compute.
Qed.

Lemma mipmap_file density size name :
  (density, size) ∈ ICON_SIZES -> name ∈ launcher_files ->
  output_dir density = mipmap density /\
  path_join (output_dir density) name = mipmap density +:+ "/" +:+ name.
Proof.
  intros Hin Hname. unfold ICON_SIZES in Hin. unfold launcher_files in Hname.
  repeat (apply elem_of_cons in Hin as [[= -> ->]|Hin]);
    [..|by apply elem_of_nil in Hin];
  (repeat (apply elem_of_cons in Hname as [->|Hname]);
    [..|by apply elem_of_nil in Hname]);
  by vm_compute.
Qed.

Section Directories.
Context `{PIL}.

Lemma made_dirs_app evs1 evs2 :
  made_dirs (evs1 ++ evs2) = made_dirs evs1 ++ made_dirs evs2.
Proof. unfold made_dirs. by rewrite calls_app, bind_app. Qed.

Lemma made_dirs_returned path exist_ok :
  made_dirs [Returned (Makedirs path exist_ok)] = dir_chain "" path.
Proof. unfold made_dirs. simpl. apply app_nil_r. Qed.

Lemma made_dirs_raised path exist_ok e :
  made_dirs [Raised (Makedirs path exist_ok) e] = dir_chain "" path.
Proof. unfold made_dirs. simpl. apply app_nil_r. Qed.

(** What one entry adds to the directories is in the chain of its
    [makedirs] call. *)
Lemma effect_dirs_bound ev s s' :
  effect ev s s' -> s'.2 ⊆ s.2 ∪ list_to_set (made_dirs [ev]).
Proof.
  destruct ev as [line|[]|[] e]; intros Hev; open_effect Hev; simpl;
    try apply union_subseteq_l.
  - by rewrite made_dirs_returned.
  - rewrite made_dirs_raised. apply union_mono_l.
    intros dir. rewrite !elem_of_list_to_set. apply subseteq_take.
Qed.

(** The directories only grow, and only by the chains of the
    [makedirs] calls. *)
Lemma replays_dirs_bound evs s s' :
  replays evs s s' -> s'.2 ⊆ s.2 ∪ list_to_set (made_dirs evs).
Proof.
  revert s. induction evs as [|ev evs IH]; intros s; simpl.
  - intros ->. apply union_subseteq_l.
  - intros (s1 & Hev%effect_dirs_bound & Hrest%IH).
    change (ev :: evs) with ([ev] ++ evs).
    rewrite made_dirs_app, list_to_set_app_L, (assoc_L (∪)).
    etrans; [exact Hrest|]. by apply union_mono_r.
Qed.

Lemma housed_weaken made made' evs :
  made ⊆ made' -> housed made evs -> housed made' evs.
Proof.
  revert made made'. induction evs as [|ev evs IH]; intros made made' Hsub;
    [done|].
  destruct ev as [line|[]|[] e]; simpl; try (by apply IH).
  - apply IH. by apply list_subseteq_skip.
  - intros [(dir & name & Hdir & Hname & ->) Hrest].
    split; [|by eapply IH]. exists dir, name. split_and!; [|done..].
    by apply Hsub.
  - intros [(dir & name & Hdir & Hname & ->) Hrest].
    split; [|by eapply IH]. exists dir, name. split_and!; [|done..].
    by apply Hsub.
Qed.

Lemma housed_app made evs1 evs2 :
  housed made evs1 -> housed made evs2 -> housed made (evs1 ++ evs2).
Proof.
  revert made. induction evs1 as [|ev evs1 IH]; intros made; [done|].
  destruct ev as [line|[]|[] e]; simpl; try (by apply IH).
  - intros H1 H2. apply IH; [done|].
    eapply housed_weaken; [|exact H2]. by apply list_subseteq_cons.
  - intros [Hhere H1] H2. split; [done|]. by apply IH.
  - intros [Hhere H1] H2. split; [done|]. by apply IH.
Qed.

Lemma housed_lookup made evs i ev im path fmt params :
  housed made evs ->
  evs !! i = Some ev ->
  call_of ev = Some (Save im path fmt params) ->
  exists dir name,
    name ∈ launcher_files /\ path = path_join dir name /\
    (dir ∈ made \/
     exists j exist_ok, (j < i)%nat /\
       evs !! j = Some (Returned (Makedirs dir exist_ok))).
Proof.
  revert made i. induction evs as [|ev' evs IH]; intros made i; [done|].
  destruct i as [|i].
  - intros Hhoused [= ->] Hcall.
    destruct ev as [line|[]|[] e]; simplify_eq/=.
    + destruct Hhoused as [(dir & name & ? & ? & ->) _].
      exists dir, name. by auto.
    + destruct Hhoused as [(dir & name & ? & ? & ->) _].
      exists dir, name. by auto.
  - intros Hhoused Hi Hcall.
    assert (exists made', housed made' evs /\
              forall dir, dir ∈ made' ->
                dir ∈ made \/
                exists exist_ok, ev' = Returned (Makedirs dir exist_ok))
      as (made' & Hhoused' & Hmade').
    { destruct ev' as [line|[]|[] e]; simpl in Hhoused;
        try (exists made; split; [tauto|by auto]).
      eexists. split; [exact Hhoused|].
      intros dir [->|Hdir]%elem_of_cons; [right; by eexists|by left]. }
    destruct (IH _ _ Hhoused' Hi Hcall)
      as (dir & name & Hname & -> & [Hdir|(j & b & Hj & Hmk)]).
    + exists dir, name. split_and!; [done..|].
      destruct (Hmade' _ Hdir) as [?|[b ->]]; [by left|].
      right. exists 0%nat, b. split; [lia|done].
    + exists dir, name. split_and!; [done..|].
      right. exists (S j), b. split; [lia|done].
Qed.

Lemma saves_events_housed dir r plan :
  Forall (fun entry => exists name,
            name ∈ launcher_files /\ entry.1.1 = path_join dir name) plan ->
  housed [dir] (saves_events r plan).
Proof.
  induction 1 as [|[[path fmt] params] plan (name & Hname & Hpath) _ IH];
    [done|].
  rewrite saves_events_cons. simpl in *. split; [|done].
  exists dir, name. split_and!; [by left|done..].
Qed.

Lemma density_head_housed src density size evs :
  housed [output_dir density] evs ->
  housed [] (density_head src density size ++ evs).
Proof. intros Hevs. exact Hevs. Qed.

Lemma loop_run_housed src table o evs :
  loop_run src table o evs -> housed [] evs.
Proof.
  induction 1 as [|density size rest r o evs Hr Hrun IH
                  |density size rest pre c e Habort].
  - done.
  - rewrite List.app_assoc. apply housed_app; [|done].
    apply density_head_housed, saves_events_housed, plan_names.
  - destruct Habort as [e|e Hres|r k path fmt params e Hres Hk]; [done..|].
    rewrite <- List.app_assoc. apply density_head_housed, housed_app.
    + apply saves_events_housed, Forall_take, plan_names.
    + pose proof (plan_names density) as Hall.
      rewrite Forall_lookup in Hall.
      destruct (Hall _ _ Hk) as (name & Hname & Hpath).
      split; [|done].
      exists (output_dir density), name. split_and!; [by left|done..].
Qed.

End Directories.

(** ** Formats, counts and whole densities *)

Lemma plan_formats density size path fmt params :
  (density, size) ∈ ICON_SIZES ->
  (path, fmt, params) ∈ save_plan density ->
  ends_with ".png" path = true /\ fmt = "PNG" /\ params = [optimize true] \/
  ends_with ".webp" path = true /\ fmt = "WEBP" /\ params = [quality 95].
Proof.
  intros Hin Hplan. unfold ICON_SIZES in Hin.
  repeat (apply elem_of_cons in Hin as [[= -> ->]|Hin]);
    [..|by apply elem_of_nil in Hin];
  vm_compute in Hplan;
  repeat (apply elem_of_cons in Hplan as [[= -> -> ->]|Hplan];
          [by vm_compute; auto|]);
  by apply elem_of_nil in Hplan.
Qed.

Lemma outputs_take_ICON_SIZES k :
  outputs (take k ICON_SIZES) = take (4 * k) expected_outputs.
Proof.
  do 5 (destruct k as [|k]; [reflexivity|]).
  assert (length ICON_SIZES = 5%nat) as Htable by reflexivity.
  assert (length expected_outputs = 20%nat) as Hfiles by reflexivity.
  rewrite (take_ge ICON_SIZES) by (rewrite Htable; lia).
  by rewrite (take_ge expected_outputs) by (rewrite Hfiles; lia).
Qed.

Section Counting.
Context `{PIL}.

Lemma count_app kind evs1 evs2 :
  count kind (evs1 ++ evs2) = (count kind evs1 + count kind evs2)%nat.
Proof. unfold count. by rewrite calls_app, filter_app, length_app. Qed.

Lemma saves_events_count r plan :
  count is_makedirs (saves_events r plan) = 0%nat /\
  count is_resize (saves_events r plan) = 0%nat /\
  count is_save (saves_events r plan) = length plan.
Proof.
  induction plan as [|[[path fmt] params] plan (IH1 & IH2 & IH3)]; [done|].
  rewrite saves_events_cons, !count_app, IH1, IH2, IH3. done.
Qed.

(** A loop that completes makes one [makedirs] and one [resize] per row
    of the table, and four saves. *)
Lemma loop_run_count src table u evs :
  loop_run src table (Normal u) evs ->
  count is_makedirs evs = length table /\
  count is_resize evs = length table /\
  count is_save evs = (4 * length table)%nat /\
  count is_open evs = 0%nat /\
  count is_convert evs = 0%nat.
Proof.
  remember (Normal u) as o eqn:Ho.
  induction 1 as [|d s rest r o evs Hr Hrun IH|]; [done| |done].
  destruct (IH Ho) as (IH1 & IH2 & IH3 & IH4 & IH5).
  destruct (saves_events_count r (save_plan d)) as (Hs1 & Hs2 & Hs3).
  assert (count is_open (density_saves d r) = 0%nat /\
          count is_convert (density_saves d r) = 0%nat) as [Hs4 Hs5].
  { unfold count, density_saves. rewrite saves_events_calls. done. }
  assert (count is_makedirs (density_head src d s) = 1%nat /\
          count is_resize (density_head src d s) = 1%nat /\
          count is_save (density_head src d s) = 0%nat /\
          count is_open (density_head src d s) = 0%nat /\
          count is_convert (density_head src d s) = 0%nat)
    as (Hh1 & Hh2 & Hh3 & Hh4 & Hh5) by done.
  unfold density_saves in *.
  rewrite !count_app, IH1, IH2, IH3, IH4, IH5, Hs1, Hs2, Hs3, Hs4, Hs5.
  rewrite Hh1, Hh2, Hh3, Hh4, Hh5.
  cbn [length save_plan]. split_and!; lia.
Qed.

(** A loop that ends on a call other than a save has written whole
    rows of the table only. *)
Lemma loop_run_whole_rows src table o evs c e :
  loop_run src table o evs ->
  Raised c e ∈ evs -> is_save c = false ->
  exists k, touched evs = outputs (take k table).
Proof.
  intros Hrun. revert c e.
  induction Hrun as [|density size rest r o evs Hr Hrun IH
                     |density size rest pre c' e' Habort]; intros c e.
  - intros Hin. by apply elem_of_nil in Hin.
  - rewrite !elem_of_app. intros [Hin|[Hin|Hin]] Hc.
    + pose proof (density_head_ok src density size) as Hok.
      rewrite Forall_forall in Hok. by apply Hok in Hin.
    + pose proof (saves_events_ok r (save_plan density)) as Hok.
      rewrite Forall_forall in Hok. by apply Hok in Hin.
    + destruct (IH _ _ Hin Hc) as [k Hk]. exists (S k).
      rewrite !touched_app, Hk. unfold density_saves.
      by rewrite saves_events_touched.
  - rewrite elem_of_app. intros [Hin|Hin] Hc.
    { pose proof (density_abort_ok _ _ _ _ _ _ Habort) as Hok.
      rewrite Forall_forall in Hok. by apply Hok in Hin. }
    apply list_elem_of_singleton in Hin as [= -> ->].
    exists 0%nat. by destruct Habort.
Qed.

End Counting.

(** * Further properties: the theorems *)

Section Further.
Context {pil : PIL} {os : OS}.

Lemma script_run_housed img o evs :
  script_run img o evs -> housed [] evs.
Proof.
  destruct 1 as [e Hmode Hconv|src conv o lev Hconv Hloop]; [done|].
  apply loop_run_housed in Hloop.
  apply (housed_app [] (loaded_events img)); [done|].
  apply housed_app; [by destruct Hconv|].
  apply housed_app; [done|by destruct o].
Qed.

(** X3: a run never removes a directory, and the only directories it can
    add are [app], [app/src], [app/src/main], [app/src/main/res] and the
    five [app/src/main/res/mipmap-<density>]. *)
Theorem only_the_output_directories_are_made w o w' :
  generate_icons w = (o, w') ->
  dirs w ⊆ dirs w' /\
  dirs w' ⊆ dirs w ∪ list_to_set output_dirs.
Proof.
  intros Hrun.
  pose proof (generate_icons_appends w) as Hlog. rewrite Hrun in Hlog.
  destruct (generate_icons_cases _ _ _ _ Hrun Hlog)
    as [(e & _ & _ & _ & _ & ->)|(img & Hopen & Hscript & Hrep)].
  { split; [done|]. apply union_subseteq_l. }
  split; [exact (replays_dirs_mono _ _ _ Hrep)|].
  etrans; [exact (replays_dirs_bound _ _ _ Hrep)|].
  apply union_mono_l. intros dir. rewrite !elem_of_list_to_set.
  unfold made_dirs. rewrite list_elem_of_bind. intros (c & Hdir & Hc).
  destruct (script_run_calls _ _ _ _ Hscript Hc)
    as [->|[->|(src & conv & d & s & _ & Hin & Hcall)]];
    [by apply elem_of_nil in Hdir..|].
  destruct Hcall as [->|[->|(r & p & f & ps & _ & _ & ->)]];
    [|by apply elem_of_nil in Hdir..].
  by apply (dir_chain_output_dirs _ _ Hin).
Qed.

(** X4: every [save], returned or not, goes to a file
    [app/src/main/res/mipmap-<density>/<name>] whose directory a
    [makedirs(..., exist_ok=True)] call has returned for earlier in the
    same run; that directory exists when the run ends. *)
Theorem every_save_follows_its_makedirs w o w' evs i ev im path fmt params :
  generate_icons w = (o, w') ->
  log w' = log w ++ evs ->
  evs !! i = Some ev ->
  call_of ev = Some (Save im path fmt params) ->
  exists j density name,
    (j < i)%nat /\
    evs !! j = Some (Returned (Makedirs (mipmap density) true)) /\
    density ∈ densities /\ name ∈ launcher_files /\
    path = mipmap density +:+ "/" +:+ name /\
    mipmap density ∈ dirs w'.
Proof.
  intros Hrun Hlog Hi Hcall.
  destruct (generate_icons_cases _ _ _ _ Hrun Hlog)
    as [(e & _ & _ & -> & _)|(img & Hopen & Hscript & Hrep)].
  { destruct i as [|[|[|i]]]; simplify_eq/=. }
  destruct (housed_lookup _ _ _ _ _ _ _ _
              (script_run_housed _ _ _ Hscript) Hi Hcall)
    as (dir & name & Hname & -> & [Hdir|(j & b & Hj & Hmk)]);
    [by apply elem_of_nil in Hdir|].
  assert (Makedirs dir b ∈ calls evs) as Hc.
  { apply elem_of_calls. left. by eapply list_elem_of_lookup_2. }
  destruct (script_run_calls _ _ _ _ Hscript Hc)
    as [?|[?|(src & conv & d & s & _ & Hin & Hcall')]]; [done..|].
  destruct Hcall' as [[= -> ->]|[?|(r & p & f & ps & _ & _ & ?)]];
    [|done..].
  destruct (mipmap_file _ _ _ Hin Hname) as [Hd ->].
  rewrite Hd in Hmk.
  exists j, d, name. split_and!; [done..| |done|done|].
  - rewrite <- densities_ICON_SIZES. apply list_elem_of_fmap.
    by exists (d, s).
  - apply (replays_made _ _ _ (mipmap d) true Hrep).
    + by eapply list_elem_of_lookup_2.
    + apply elem_of_list_to_set. rewrite <- Hd. apply mipmap_made.
      rewrite <- densities_ICON_SIZES. apply list_elem_of_fmap.
      by exists (d, s).
Qed.

(** X5: the format follows the extension: every [save] call on a
    [.png] path passes format ["PNG"] with [optimize=True], every
    [save] call on a [.webp] path passes format ["WEBP"] with
    [quality=95], and there are no other [save] calls. *)
Theorem format_follows_extension w o w' evs im path fmt params :
  generate_icons w = (o, w') ->
  log w' = log w ++ evs ->
  Save im path fmt params ∈ calls evs ->
  ends_with ".png" path = true /\ fmt = "PNG" /\ params = [optimize true] \/
  ends_with ".webp" path = true /\ fmt = "WEBP" /\ params = [quality 95].
Proof.
  intros Hrun Hlog Hc.
  destruct (generate_icons_cases _ _ _ _ Hrun Hlog)
    as [(e & _ & _ & -> & _)|(img & Hopen & Hscript & Hrep)].
  { simpl in Hc. by apply list_elem_of_singleton in Hc. }
  destruct (script_run_calls _ _ _ _ Hscript Hc)
    as [?|[?|(src & conv & d & s & _ & Hin & Hcall)]]; [done..|].
  destruct Hcall as [?|[?|(r & p & f & ps & _ & Hplan & [= -> -> -> ->])]];
    [done..|].
  by eapply plan_formats.
Qed.

(** X9: when the call that raises is not a [save] (the load, the
    conversion, a [makedirs] or a [resize]), no density is left half
    written: the files written are the complete sets of four of the
    first [k] densities, for some [k]. *)
Theorem other_failures_leave_whole_densities w o w' evs c e :
  generate_icons w = (o, w') ->
  log w' = log w ++ evs ->
  Raised c e ∈ evs ->
  is_save c = false ->
  exists k, written evs = take (4 * k) expected_outputs.
Proof.
  intros Hrun Hlog Hraised Hc.
  destruct (generate_icons_cases _ _ _ _ Hrun Hlog)
    as [(e' & _ & _ & -> & _)|(img & Hopen & Hscript & Hrep)].
  { by exists 0%nat. }
  pose proof (script_run_raised _ _ _ Hscript) as Hshape.
  destruct Hscript as [e' Hmode Hconv|src conv o lev Hconv Hloop].
  { by exists 0%nat. }
  destruct o as [u|e'].
  { rewrite Forall_forall in Hshape. by apply Hshape in Hraised. }
  destruct Hshape as (pre & c' & Hevs & Hok).
  rewrite Hevs, written_app, app_nil_r, (written_touched _ Hok).
  assert (Raised c e ∈ lev) as Hin.
  { rewrite !elem_of_app in Hraised.
    destruct Hraised as [Hin|[Hin|[Hin|Hin]]]; [..|done|].
    - unfold loaded_events in Hin.
      repeat (apply elem_of_cons in Hin as [?|Hin]; [done|]).
      by apply elem_of_nil in Hin.
    - destruct Hconv; [by apply elem_of_nil in Hin|].
      by apply list_elem_of_singleton in Hin.
    - by apply elem_of_nil in Hin. }
  destruct (loop_run_whole_rows _ _ _ _ _ _ Hloop Hin Hc) as [k Hk].
  exists k. rewrite <- outputs_take_ICON_SIZES, <- Hk.
  rewrite <- (script_touched img src conv (Raise e') lev Hconv), Hevs.
  rewrite touched_app.
  assert (c' = c) as ->.
  { rewrite Hevs in Hraised. apply elem_of_app in Hraised as [Hp|Hp].
    - rewrite Forall_forall in Hok. by apply Hok in Hp.
    - by apply list_elem_of_singleton in Hp as [= -> ->]. }
  destruct c; try done; by rewrite app_nil_r.
Qed.

(** X10: a run that loads its image and completes makes exactly one
    [Image.open], at most one [convert] (one exactly when the image is
    not RGBA), five [makedirs], five [resize] and twenty [save] calls:
    each density is resized once and the bitmap saved four times. *)
Theorem complete_run_call_counts w w' img evs :
  Image_open (at_open w) SOURCE_ICON = inr img ->
  generate_icons w = (Normal tt, w') ->
  log w' = log w ++ evs ->
  count is_open evs = 1%nat /\
  count is_convert evs
    = (if bool_decide (mode img = "RGBA") then 0 else 1)%nat /\
  count is_makedirs evs = 5%nat /\
  count is_resize evs = 5%nat /\
  count is_save evs = 20%nat.
Proof.
  intros Hopen Hrun Hlog.
  destruct (generate_icons_sound _ _ _ _ Hopen Hrun)
    as (evs' & Hlog' & Hrep & Hscript).
  rewrite Hlog in Hlog'. apply app_inv_head in Hlog' as <-.
  inversion Hscript as [|src conv o' lev Hconv Hloop]; subst.
  destruct (loop_run_count _ _ _ _ Hloop) as (H1 & H2 & H3 & H4 & H5).
  rewrite !count_app, H1, H2, H3, H4, H5.
  destruct Hconv as [Hmode|src Hmode Hconv].
  - rewrite bool_decide_eq_true_2 by done. done.
  - rewrite bool_decide_eq_false_2 by done. done.
Qed.

End Further.

(** * The claims on the small platform *)

#[local] Existing Instance Toy.toy_PIL.

Lemma toy_contract : @PILContract Toy.toy_PIL.
Proof. split; intros; by simplify_eq/=. Qed.

(** With every directory refused, a run that loaded its image writes
    nothing: C1 as first stated does not hold. *)
Lemma read_only_run_writes_nothing :
  @Image_open _ (Toy.toy_OS Toy.read_only) (at_open Toy.empty_world)
    SOURCE_ICON = inr (Toy.Bitmap "RGBA" (300, 200)) /\
  (toy_run Toy.read_only Toy.empty_world).1
    = @Raise Toy.toy_PIL unit "Permission denied" /\
  written (log (toy_run Toy.read_only Toy.empty_world).2) = [] /\
  written (log (toy_run Toy.read_only Toy.empty_world).2) ≠ expected_outputs /\
  files (toy_run Toy.read_only Toy.empty_world).2 = ∅.
Proof. by vm_compute. Qed.

(** A source whose header reads but whose pixel data is cut short: the
    open returns, the first [resize] raises outside the [try], the run
    ends with that exception after making [mipmap-mdpi], and no error
    line is printed: C2 as first stated does not hold. *)
Lemma truncated_source_is_not_reported :
  let img := Lazy.Picture "RGBA" (64, 64) false in
  let run := @generate_icons Lazy.lazy_PIL (Lazy.lazy_OS img)
               Lazy.empty_world in
  @Image_open Lazy.lazy_PIL (Lazy.lazy_OS img) (at_open Lazy.empty_world)
    SOURCE_ICON = inr img /\
  @resize Lazy.lazy_PIL img (48, 48) LANCZOS
    = inl "image file is truncated" /\
  run.1 = @Raise Lazy.lazy_PIL unit "image file is truncated" /\
  "app/src/main/res/mipmap-mdpi" ∈ dirs run.2 /\
  stdout (log run.2) =
    [ "Loading source icon: app/src/main/res/Icon.png";
      "Source icon size: (64, 64)";
      nl +:+ "Generating mdpi icons (48x48)..." ].
Proof.
  split_and!; [reflexivity|reflexivity|by vm_compute| |by vm_compute].
  apply (bool_decide_unpack _). by vm_compute.
Qed.

Lemma opaque_contract : @PILContract Opaque.opaque_PIL.
Proof. split; intros; by simplify_eq/=. Qed.


Lemma complete_run_writes_twenty_files_witness :
  exists evs,
    log (toy_run Toy.fair Toy.empty_world).2 = log Toy.empty_world ++ evs /\
    written evs = expected_outputs /\
    touched evs = expected_outputs /\
    length (written evs) = 20%nat /\
    (forall density, density ∈ densities ->
       filter (fun path => starts_with (mipmap density +:+ "/") path = true)
              (written evs)
       = (fun name => mipmap density +:+ "/" +:+ name) <$> launcher_files) /\
    (forall density, density ∈ densities ->
       mipmap density ∈ dirs (toy_run Toy.fair Toy.empty_world).2) /\
    (forall path, path ∈ expected_outputs ->
       is_Some (files (toy_run Toy.fair Toy.empty_world).2 !! path)) /\
    (forall path, path ∉ expected_outputs ->
       files (toy_run Toy.fair Toy.empty_world).2 !! path
       = files Toy.empty_world !! path).
Proof.
  apply (@complete_run_writes_twenty_files _ (Toy.toy_OS Toy.fair)
           Toy.empty_world _ (Toy.Bitmap "RGB" (512, 512))).
  - reflexivity.
  - apply run_outcome. vm_compute. reflexivity.
Defined.

Lemma load_failure_is_reported_witness :
  exists w',
    toy_run Toy.no_source Toy.empty_world = (Normal tt, w') /\
    log w' = log Toy.empty_world ++
      [ Printed "Loading source icon: app/src/main/res/Icon.png";
        @Raised Toy.toy_PIL (Open "app/src/main/res/Icon.png")
          "No such file or directory";
        Printed "Error loading source icon: No such file or directory" ] /\
    files w' = files Toy.empty_world /\
    dirs w' = dirs Toy.empty_world.
Proof.
  apply (@load_failure_is_reported _ (Toy.toy_OS Toy.no_source)
           Toy.empty_world "No such file or directory").
  reflexivity.
Defined.

Lemma round_icon_is_a_plain_copy_witness :
  let w' := (toy_run Toy.fair Toy.empty_world).2 in
  let im : Image := Toy.Bitmap "RGBA" (48, 48) in
  Returned (Save im (mipmap "mdpi" +:+ "/ic_launcher." +:+ "png")
                 "PNG" [optimize true])
    ∈ toy_log Toy.fair Toy.empty_world /\
  (exists src conv size,
     conversion (Toy.Bitmap "RGB" (512, 512) : Image) src conv /\
     ("mdpi", size) ∈ ICON_SIZES /\
     resize src (size, size) LANCZOS = inr im) /\
  files w' !! (mipmap "mdpi" +:+ "/ic_launcher_round." +:+ "png")
    = Some (encode im "PNG" [optimize true]) /\
  files w' !! (mipmap "mdpi" +:+ "/ic_launcher." +:+ "png")
    = Some (encode im "PNG" [optimize true]).
Proof.
  apply (@round_icon_is_a_plain_copy _ (Toy.toy_OS Toy.fair)
           Toy.empty_world (toy_run Toy.fair Toy.empty_world).1).
  - reflexivity.
  - apply surjective_pairing.
  - apply generate_icons_appends.
  - apply (bool_decide_unpack _). by vm_compute.
  - apply (bool_decide_unpack _). by vm_compute.
  - apply (list_elem_of_lookup_2 _ 9). vm_compute. reflexivity.
Defined.


Lemma every_resize_is_square_lanczos_witness :
  let evs := toy_log Toy.fair Toy.empty_world in
  (forall im sz f, Resize im sz f ∈ calls evs ->
     f = LANCZOS /\
     exists density s, (density, s) ∈ ICON_SIZES /\ sz = (s, s)) /\
  (forall density s name im fmt params,
     (density, s) ∈ ICON_SIZES ->
     Save im (mipmap density +:+ "/" +:+ name) fmt params ∈ calls evs ->
     size im = (s, s)) /\
  ((toy_run Toy.fair Toy.empty_world).1 = Normal tt ->
   forall density s, (density, s) ∈ ICON_SIZES ->
     exists src r,
       Returned (Resize src (s, s) LANCZOS) ∈ evs /\
       resize src (s, s) LANCZOS = inr r /\ size r = (s, s)).
Proof.
  apply (@every_resize_is_square_lanczos _ (Toy.toy_OS Toy.fair)
           toy_contract Toy.empty_world _
           (toy_run Toy.fair Toy.empty_world).2
           (Toy.Bitmap "RGB" (512, 512))).
  - reflexivity.
  - apply surjective_pairing.
  - apply generate_icons_appends.
Defined.

Lemma densities_are_visited_in_table_order_witness :
  let evs := toy_log Toy.disk_full Toy.empty_world in
  ICON_SIZES = [("mdpi", 48); ("hdpi", 72); ("xhdpi", 96);
                ("xxhdpi", 144); ("xxxhdpi", 192)] /\
  headers evs `prefix_of`
    [ nl +:+ "Generating mdpi icons (48x48)...";
      nl +:+ "Generating hdpi icons (72x72)...";
      nl +:+ "Generating xhdpi icons (96x96)...";
      nl +:+ "Generating xxhdpi icons (144x144)...";
      nl +:+ "Generating xxxhdpi icons (192x192)..." ] /\
  ((toy_run Toy.disk_full Toy.empty_world).1 = Normal tt ->
   headers evs =
    [ nl +:+ "Generating mdpi icons (48x48)...";
      nl +:+ "Generating hdpi icons (72x72)...";
      nl +:+ "Generating xhdpi icons (96x96)...";
      nl +:+ "Generating xxhdpi icons (144x144)...";
      nl +:+ "Generating xxxhdpi icons (192x192)..." ]).
Proof.
  apply (@densities_are_visited_in_table_order _ (Toy.toy_OS Toy.disk_full)
           Toy.empty_world _
           (toy_run Toy.disk_full Toy.empty_world).2
           (Toy.Bitmap "RGBA" (512, 512))).
  - reflexivity.
  - apply surjective_pairing.
  - apply generate_icons_appends.
Defined.

Lemma later_failures_propagate_witness :
  let evs := toy_log Toy.disk_full Toy.empty_world in
  let w' := (toy_run Toy.disk_full Toy.empty_world).2 in
  let c := Save (Toy.Bitmap "RGBA" (72, 72) : Image)
             "app/src/main/res/mipmap-hdpi/ic_launcher.webp"
             "WEBP" [quality 95] in
  (toy_run Toy.disk_full Toy.empty_world).1
    = @Raise Toy.toy_PIL unit "No space left on device" /\
  (exists pre, evs = pre ++ [Raised c "No space left on device"] /\
     Forall (fun ev => is_raised ev = false) pre) /\
  (forall im path fmt params,
     Returned (Save im path fmt params) ∈ evs ->
     files w' !! path = Some (encode im fmt params)).
Proof.
  apply (@later_failures_propagate _ (Toy.toy_OS Toy.disk_full)
           Toy.empty_world _ _ (Toy.Bitmap "RGBA" (512, 512))).
  - reflexivity.
  - apply surjective_pairing.
  - apply generate_icons_appends.
  - apply (list_elem_of_lookup_2 _ 21). vm_compute. reflexivity.
Defined.


Lemma every_bitmap_is_resized_from_the_source_witness :
  let evs := toy_log Toy.fair Toy.empty_world in
  let img : Image := Toy.Bitmap "RGB" (512, 512) in
  (forall im sz f, Resize im sz f ∈ calls evs ->
     exists conv, conversion img im conv) /\
  (forall im path fmt params, Save im path fmt params ∈ calls evs ->
     exists src conv density size,
       conversion img src conv /\
       (density, size) ∈ ICON_SIZES /\
       (path, fmt, params) ∈ save_plan density /\
       resize src (size, size) LANCZOS = inr im) /\
  (forall src1 conv1 src2 conv2,
     conversion img src1 conv1 -> conversion img src2 conv2 -> src1 = src2).
Proof.
  apply (@every_bitmap_is_resized_from_the_source _ (Toy.toy_OS Toy.fair)
           Toy.empty_world
           (toy_run Toy.fair Toy.empty_world).1
           (toy_run Toy.fair Toy.empty_world).2).
  - reflexivity.
  - apply surjective_pairing.
  - apply generate_icons_appends.
Defined.


(** ** The further properties on the small platforms *)

Lemma success_line_iff_complete_witness :
  let evs := toy_log Toy.fair Toy.empty_world in
  (closing_line ∈ stdout evs <->
   (toy_run Toy.fair Toy.empty_world).1 = Normal tt /\
   exists img,
     @Image_open _ (Toy.toy_OS Toy.fair) (at_open Toy.empty_world)
       SOURCE_ICON = inr img) /\
  (closing_line ∈ stdout evs -> last evs = Some (Printed closing_line)).
Proof.
  apply (@success_line_iff_complete Toy.toy_PIL
           (Toy.toy_OS Toy.fair)
           Toy.empty_world _ (toy_run Toy.fair Toy.empty_world).2).
  - apply surjective_pairing.
  - apply generate_icons_appends.
Defined.

Lemma only_the_output_paths_change_witness :
  let w' := (toy_run Toy.disk_full Toy.empty_world).2 in
  (forall path, path ∉ expected_outputs ->
     files w' !! path = files Toy.empty_world !! path) /\
  files w' !! SOURCE_ICON = files Toy.empty_world !! SOURCE_ICON.
Proof.
  apply (@only_the_output_paths_change Toy.toy_PIL
           (Toy.toy_OS Toy.disk_full)
           Toy.empty_world (toy_run Toy.disk_full Toy.empty_world).1).
  apply surjective_pairing.
Defined.

Lemma only_the_output_directories_are_made_witness :
  let w' := (toy_run Toy.locked_xhdpi Toy.empty_world).2 in
  dirs Toy.empty_world ⊆ dirs w' /\
  dirs w' ⊆ dirs Toy.empty_world ∪ list_to_set output_dirs.
Proof.
  apply (@only_the_output_directories_are_made Toy.toy_PIL
           (Toy.toy_OS Toy.locked_xhdpi)
           Toy.empty_world (toy_run Toy.locked_xhdpi Toy.empty_world).1).
  apply surjective_pairing.
Defined.

Lemma every_save_follows_its_makedirs_witness :
  let evs := toy_log Toy.disk_full Toy.empty_world in
  let w' := (toy_run Toy.disk_full Toy.empty_world).2 in
  exists j density name,
    (j < 21)%nat /\
    evs !! j = Some (Returned (Makedirs (mipmap density) true)) /\
    density ∈ densities /\ name ∈ launcher_files /\
    "app/src/main/res/mipmap-hdpi/ic_launcher.webp"
      = mipmap density +:+ "/" +:+ name /\
    mipmap density ∈ dirs w'.
Proof.
  apply (@every_save_follows_its_makedirs Toy.toy_PIL
           (Toy.toy_OS Toy.disk_full)
           Toy.empty_world (toy_run Toy.disk_full Toy.empty_world).1 _ _ _
           (@Raised Toy.toy_PIL
              (@Save Toy.toy_PIL (Toy.Bitmap "RGBA" (72, 72))
                 "app/src/main/res/mipmap-hdpi/ic_launcher.webp"
                 "WEBP" [quality 95])
              "No space left on device")
           (Toy.Bitmap "RGBA" (72, 72)) _ "WEBP" [quality 95]).
  - apply surjective_pairing.
  - apply generate_icons_appends.
  - vm_compute. reflexivity.
  - reflexivity.
Defined.

Lemma format_follows_extension_witness :
  ends_with ".png" "app/src/main/res/mipmap-mdpi/ic_launcher.png" = true /\
  "PNG" = "PNG" /\ [optimize true] = [optimize true] \/
  ends_with ".webp" "app/src/main/res/mipmap-mdpi/ic_launcher.png" = true /\
  "PNG" = "WEBP" /\ [optimize true] = [quality 95].
Proof.
  apply (@format_follows_extension Toy.toy_PIL
           (Toy.toy_OS Toy.fair)
           Toy.empty_world (toy_run Toy.fair Toy.empty_world).1
           (toy_run Toy.fair Toy.empty_world).2
           (toy_log Toy.fair Toy.empty_world)
           (Toy.Bitmap "RGBA" (48, 48))).
  - apply surjective_pairing.
  - apply generate_icons_appends.
  - apply (list_elem_of_lookup_2 _ 4). vm_compute. reflexivity.
Defined.

Lemma source_is_opened_once_witness :
  exists rest,
    calls (toy_log Toy.fair Toy.empty_world)
      = Open "app/src/main/res/Icon.png" :: rest /\
    Forall (fun c => is_open c = false) rest.
Proof.
  apply (@source_is_opened_once Toy.toy_PIL
           (Toy.toy_OS Toy.fair)
           Toy.empty_world (toy_run Toy.fair Toy.empty_world).1
           (toy_run Toy.fair Toy.empty_world).2).
  - apply surjective_pairing.
  - apply generate_icons_appends.
Defined.

Lemma conversion_failure_leaves_no_output_witness :
  let img : @Image Picky.picky_PIL := Toy.Bitmap "P" (64, 64) in
  let run := @generate_icons Picky.picky_PIL (Picky.picky_OS img)
               Picky.empty_world in
  run.1 = @Raise Picky.picky_PIL unit "conversion not supported" /\
  log run.2 = log Picky.empty_world ++
    [ @Printed Picky.picky_PIL
        "Loading source icon: app/src/main/res/Icon.png";
      Returned (Open "app/src/main/res/Icon.png");
      Printed ("Source icon size: " +:+ repr_size (@size Picky.picky_PIL img));
      Raised (Convert img "RGBA") "conversion not supported" ] /\
  files run.2 = files Picky.empty_world /\
  dirs run.2 = dirs Picky.empty_world.
Proof.
  apply (@conversion_failure_leaves_no_output Picky.picky_PIL
           (Picky.picky_OS (Toy.Bitmap "P" (64, 64))) Picky.empty_world).
  - reflexivity.
  - discriminate.
  - reflexivity.
  - apply surjective_pairing.
Defined.

Lemma saved_lines_report_the_files_written_witness :
  let evs := toy_log Toy.disk_full Toy.empty_world in
  saved_lines evs = (fun path => "  ✓ Saved: " +:+ path) <$> written evs.
Proof.
  apply (@saved_lines_report_the_files_written Toy.toy_PIL
           (Toy.toy_OS Toy.disk_full)
           Toy.empty_world (toy_run Toy.disk_full Toy.empty_world).1
           (toy_run Toy.disk_full Toy.empty_world).2).
  - apply surjective_pairing.
  - apply generate_icons_appends.
Defined.

Lemma other_failures_leave_whole_densities_witness :
  exists k,
    written (toy_log Toy.locked_xhdpi Toy.empty_world)
    = take (4 * k) expected_outputs.
Proof.
  apply (@other_failures_leave_whole_densities Toy.toy_PIL
           (Toy.toy_OS Toy.locked_xhdpi)
           Toy.empty_world (toy_run Toy.locked_xhdpi Toy.empty_world).1
           (toy_run Toy.locked_xhdpi Toy.empty_world).2 _
           (Makedirs "app/src/main/res/mipmap-xhdpi" true)
           "Permission denied").
  - apply surjective_pairing.
  - apply generate_icons_appends.
  - apply (list_elem_of_lookup_2 _ 26). vm_compute. reflexivity.
  - reflexivity.
Defined.

Lemma complete_run_call_counts_witness :
  let evs := toy_log Toy.fair Toy.empty_world in
  let img : Image := Toy.Bitmap "RGB" (512, 512) in
  count is_open evs = 1%nat /\
  count is_convert evs
    = (if bool_decide (mode img = "RGBA") then 0 else 1)%nat /\
  count is_makedirs evs = 5%nat /\
  count is_resize evs = 5%nat /\
  count is_save evs = 20%nat.
Proof.
  apply (@complete_run_call_counts Toy.toy_PIL
           (Toy.toy_OS Toy.fair)
           Toy.empty_world (toy_run Toy.fair Toy.empty_world).2).
  - reflexivity.
  - apply run_outcome. vm_compute. reflexivity.
  - apply generate_icons_appends.
Defined.
